(** * Pixeldrain backend (backend/pixeldrain/pixeldrain.go)

    A shallow embedding of the filesystem facade of the pixeldrain backend:
    [NewFs], [List], [About], [NewObject], [Put], [Mkdir], [Rmdir], [Purge],
    [Move], [DirMove] and the object methods [SetModTime], [Update],
    [Remove], [Hash], [Remote], [ModTime], [Size] and [MimeType].

    Go values are modelled as follows.
    - [int64] is [Z], with the wrap-around of arithmetic written out
      ([int64_wrap]); [int] is [Z]; [time.Time] is [Z] (an instant).
    - [error] is an inductive type: the two sentinels of the API client, the
      sentinels of the [fs] and [hash] packages, any other error, and the
      wrapping done by [fmt.Errorf] with the verb percent-w.
    - A call that returns [(v, err)] returns [error + V]; a call that returns
      only [err] returns [option error] ([None] is [nil]).
    - Pointers are addresses into an explicit store: [*FilesystemNode] is an
      address of the node store, [*Object] an address of the object store, a
      slice [[]FilesystemNode] is a run of consecutive node cells.
    - The methods of the API client ([f.stat], [f.put], [f.update],
      [f.mkdir], [f.delete], [f.rename], [f.userInfo]) act on the state of
      the remote service; every invocation is appended to a trace.
    - A run-time panic (nil dereference, index out of range) is [None].
    The [context.Context] argument and the text printed by [logRequest] are
    left out; the arguments of [logRequest] are still evaluated. *)

From Stdlib Require Import ZArith String List Lia.
From stdpp Require Import base option gmap list strings.

(** ** Machine integers *)

(** Two's complement wrap-around of a 64-bit signed integer. *)
Definition int64_wrap (z : Z) : Z := ((z + 2 ^ 63) mod 2 ^ 64 - 2 ^ 63)%Z.

(** [a - b] on [int64]. *)
Definition int64_sub (a b : Z) : Z := int64_wrap (a - b).

Definition int64_range (z : Z) : Prop := (- 2 ^ 63 <= z < 2 ^ 63)%Z.

(** ** Errors *)

Inductive error : Type :=
| errNotFound                         (* API client: path not found *)
| errExists                           (* API client: node already exists *)
| ErrorDirNotFound                    (* fs.ErrorDirNotFound *)
| ErrorObjectNotFound                 (* fs.ErrorObjectNotFound *)
| ErrorIsDir                          (* fs.ErrorIsDir *)
| ErrorCantMove                       (* fs.ErrorCantMove *)
| ErrorDirExists                      (* fs.ErrorDirExists *)
| ErrUnsupported                      (* hash.ErrUnsupported *)
| ErrOther (msg : string)             (* any other error value *)
| Errorf (msg : string) (e : error).  (* fmt.Errorf(msg + ": %w", e) *)

(** ** Data model *)

Definition addr := nat.

(** Options defines the configuration for this backend. *)
Record Options := {
  APIKey : string;
  BucketID : string;
  APIURL : string;
}.

(** Fs represents a remote box.  The fields [features] and [srv] are the
    host's feature table and the HTTP connection; the latter is the remote
    service of [Api] below. *)
Record Fs := {
  name : string;
  root : string;
  opt : Options;
  loggedIn : bool;
  pathPrefix : string;
}.

(** Modelled from the spec: the declaration of [FilesystemNode] is not in
    pixeldrain.go.  The fields are those of the spec's data model, under the
    names pixeldrain.go reads them by. *)
Record FilesystemNode := {
  Type_ : string;
  Path : string;
  Modified : Z;
  FileSize : Z;
  FileType : string;
  SHA256Sum : string;
}.

Definition set_Path (s : string) (n : FilesystemNode) : FilesystemNode :=
  {| Type_ := Type_ n; Path := s; Modified := Modified n;
     FileSize := FileSize n; FileType := FileType n;
     SHA256Sum := SHA256Sum n |}.

Definition set_Modified (t : Z) (n : FilesystemNode) : FilesystemNode :=
  {| Type_ := Type_ n; Path := Path n; Modified := t;
     FileSize := FileSize n; FileType := FileType n;
     SHA256Sum := SHA256Sum n |}.

(** Modelled from the spec: the declaration of [FilesystemPath] (the stat
    result) is not in pixeldrain.go.  [Path], [BaseIndex] and [Children] as
    pixeldrain.go reads them; the two slices are given by their elements. *)
Record FilesystemPath := {
  fspPath : list FilesystemNode;
  BaseIndex : Z;
  Children : list FilesystemNode;
}.

(** The parts of the user record that pixeldrain.go reads. *)
Record SubscriptionType := {
  subName : string;
  StorageSpace : Z;
}.

Record UserInfo := {
  Username : string;
  Subscription : SubscriptionType;
  StorageSpaceUsed : Z;
}.

Definition set_StorageSpace (z : Z) (u : UserInfo) : UserInfo :=
  {| Username := Username u;
     Subscription := {| subName := subName (Subscription u);
                        StorageSpace := z |};
     StorageSpaceUsed := StorageSpaceUsed u |}.

(** fs.Usage: each field is a [*int64]; [nil] is [None].  [About] sets these
    three. *)
Record Usage := {
  Total : option Z;
  Used : option Z;
  Free : option Z;
}.

(** fs.NewUsageValue *)
Definition NewUsageValue (v : Z) : option Z := Some v.

(** A slice of nodes: the cells [sptr], ..., [sptr + slen - 1]. *)
Record slice := {
  sptr : addr;
  slen : nat;
}.

(** Object describes a pixeldrain file.  [base] points to a node, for an
    object made from a stat result to a node in the path slice. *)
Record Object := {
  fs : Fs;
  base : addr;
  path : slice;
  children : slice;
}.

(** fs.Object is an interface: a value is a pointer to an [Object] of this
    backend, or an object of some other backend, of which [Move] only reads
    [Remote()]. *)
Inductive fsObject : Type :=
| PdObject (p : addr)
| ForeignObject (remote : string).

(** fs.ObjectInfo as [Put] reads it. *)
Record ObjectInfo := {
  srcRemote : string;
  srcModTime : Z;
  srcSize : Z;
}.

(** The values of a [map[string]any]. *)
Inductive any : Type :=
| anyTime (t : Z)
| anyString (s : string)
| anyInt (z : Z).

(** ** The remote service *)

(** What the API client does on the remote service.  Each operation takes
    the state of the service and returns its answer and the new state. *)
Class Api := {
  Server : Type;
  OpenOption : Type;
  api_stat : Fs → string → Server → (error + FilesystemPath) * Server;
  api_put : Fs → string → string → list OpenOption → Server →
            (error + FilesystemNode) * Server;
  api_update : Fs → string → gmap string any → Server →
               (error + FilesystemNode) * Server;
  api_mkdir : Fs → string → Server → option error * Server;
  api_delete : Fs → string → bool → Server → option error * Server;
  api_rename : Fs → string → string → Server → option error * Server;
  api_userInfo : Fs → Server → (error + UserInfo) * Server;
}.

Section Backend.
Context {api : Api}.

(** One invocation of a method of the API client. *)
Inductive Call : Type :=
| CallStat (f : Fs) (p : string)
| CallPut (f : Fs) (p : string) (body : string) (options : list OpenOption)
| CallUpdate (f : Fs) (p : string) (fields : gmap string any)
| CallMkdir (f : Fs) (p : string)
| CallDelete (f : Fs) (p : string) (recursive : bool)
| CallRename (f : Fs) (src dst : string)
| CallUserInfo (f : Fs).

(** The state a facade call runs in. *)
Record World := {
  server : Server;
  trace : list Call;
  nodes : gmap addr FilesystemNode;
  objs : gmap addr Object;
  next : addr;
}.

Definition called (c : Call) (s : Server) (w : World) : World :=
  {| server := s; trace := trace w ++ [c]; nodes := nodes w;
     objs := objs w; next := next w |}.

Definition with_nodes (h : gmap addr FilesystemNode) (n : addr) (w : World)
  : World :=
  {| server := server w; trace := trace w; nodes := h;
     objs := objs w; next := n |}.

Definition with_objs (h : gmap addr Object) (n : addr) (w : World) : World :=
  {| server := server w; trace := trace w; nodes := nodes w;
     objs := h; next := n |}.

(** State and panic monad. *)
Definition M (A : Type) : Type := World → option (A * World).

Definition ret {A} (a : A) : M A := λ w, Some (a, w).

Definition bind {A B} (m : M A) (k : A → M B) : M B :=
  λ w, match m w with
       | Some (a, w') => k a w'
       | None => None
       end.

Definition panic {A} : M A := λ _, None.

Notation "'do' x <- m ; k" := (bind m (λ x, k))
  (at level 10, x name, m at level 100, k at level 200).
Notation "'exec' m ; k" := (bind m (λ _, k))
  (at level 10, m at level 100, k at level 200).

(** *** The API client *)

Definition call {A} (c : Call) (op : Server → A * Server) : M A :=
  λ w, let '(r, s) := op (server w) in Some (r, called c s w).

(** Modelled from the spec: the methods of the API client are not in
    pixeldrain.go.  Each one is one invocation on the remote service, with
    the outcome the service gives. *)
Definition stat (f : Fs) (p : string) : M (error + FilesystemPath) :=
  call (CallStat f p) (api_stat f p).

Definition put (f : Fs) (p body : string) (options : list OpenOption)
  : M (error + FilesystemNode) :=
  call (CallPut f p body options) (api_put f p body options).

Definition update (f : Fs) (p : string) (fields : gmap string any)
  : M (error + FilesystemNode) :=
  call (CallUpdate f p fields) (api_update f p fields).

Definition mkdir (f : Fs) (p : string) : M (option error) :=
  call (CallMkdir f p) (api_mkdir f p).

Definition delete_ (f : Fs) (p : string) (recursive : bool)
  : M (option error) :=
  call (CallDelete f p recursive) (api_delete f p recursive).

Definition rename (f : Fs) (src dst : string) : M (option error) :=
  call (CallRename f src dst) (api_rename f src dst).

Definition userInfo (f : Fs) : M (error + UserInfo) :=
  call (CallUserInfo f) (api_userInfo f).

(** *** About *)

(** About gets quota information. *)
Definition About (f : Fs) : M (error + Usage) :=
  do r <- userInfo f;
  match r with
  | inl err => ret (inl (Errorf "failed to read user info" err))
  | inr user =>
      let user :=
        if (StorageSpace (Subscription user) =? -1)%Z
        then set_StorageSpace (10 ^ 15)%Z user (* 1 PB *)
        else user in
      ret (inr {| Used := NewUsageValue (StorageSpaceUsed user);
                  Total := NewUsageValue (StorageSpace (Subscription user));
                  Free := NewUsageValue
                            (int64_sub (StorageSpaceUsed user)
                               (StorageSpace (Subscription user))) |})
  end.

(** *** The store *)

(** The node an [*Object] refers to through [base]; a panic when the object
    pointer or [base] is nil or dangling. *)
Definition deref_base (p : addr) : M FilesystemNode :=
  λ w, match objs w !! p with
       | Some o => match nodes w !! base o with
                   | Some n => Some (n, w)
                   | None => None
                   end
       | None => None
       end.

(** [o.base.X = v]: a write through [base]. *)
Definition assign_base (p : addr) (g : FilesystemNode → FilesystemNode)
  : M unit :=
  λ w, match objs w !! p with
       | Some o => match nodes w !! base o with
                   | Some n =>
                       Some (tt, with_nodes (<[base o := g n]> (nodes w))
                                   (next w) w)
                   | None => None
                   end
       | None => None
       end.

(** Writing the elements of a slice into consecutive cells from [a] on. *)
Fixpoint store_array (a : addr) (l : list FilesystemNode)
  (h : gmap addr FilesystemNode) : gmap addr FilesystemNode :=
  match l with
  | [] => h
  | n :: l' => <[a := n]> (store_array (S a) l' h)
  end.

(** The backing array of a slice with the elements [l]. *)
Definition new_slice (l : list FilesystemNode) : M slice :=
  λ w, Some ({| sptr := next w; slen := length l |},
             with_nodes (store_array (next w) l (nodes w))
               (next w + length l) w).

(** [&Object{...}] *)
Definition new_Object (o : Object) : M addr :=
  λ w, Some (next w, with_objs (<[next w := o]> (objs w)) (S (next w)) w).

(** The elements of a slice, read from the store. *)
Definition read_slice (h : gmap addr FilesystemNode) (s : slice)
  : option (list FilesystemNode) :=
  mapM (λ i, h !! (sptr s + i)) (seq 0 (slen s)).

(** [l[i]] for an [int] index: a panic out of range. *)
Definition index {A} (l : list A) (i : Z) : option A :=
  if (i <? 0)%Z then None else l !! Z.to_nat i.

(** The nil slice. *)
Definition nil_slice : slice := {| sptr := 0; slen := 0 |}.

(** Modelled from the spec: [pathToObject] is not in pixeldrain.go.  The
    Object wraps the target node together with the stat result it was
    resolved from: [path] and [children] are the slices of the stat result,
    and [base] points to the node at [BaseIndex] in the path slice. *)
Definition pathToObject (f : Fs) (fsp : FilesystemPath) : M addr :=
  match index (fspPath fsp) (BaseIndex fsp) with
  | None => panic
  | Some _ =>
      do ps <- new_slice (fspPath fsp);
      do cs <- new_slice (Children fsp);
      new_Object {| fs := f; base := sptr ps + Z.to_nat (BaseIndex fsp);
                    path := ps; children := cs |}
  end.

(** Modelled from the spec: [nodeToObject] is not in pixeldrain.go.  The
    Object wraps exactly the one node it is given, with no path trace and no
    children. *)
Definition nodeToObject (f : Fs) (node : FilesystemNode) : M addr :=
  do s <- new_slice [node];
  new_Object {| fs := f; base := sptr s;
                path := nil_slice; children := nil_slice |}.

(** *** Methods of Fs *)

(** NewObject finds the Object at remote.  If it can't be found it returns
    the error fs.ErrorObjectNotFound. *)
Definition NewObject (f : Fs) (remote : string) : M (error + fsObject) :=
  do r <- stat f remote;
  match r with
  | inl errNotFound => ret (inl ErrorObjectNotFound)
  | inl err => ret (inl err)
  | inr fsp =>
      match index (fspPath fsp) (BaseIndex fsp) with
      | None => panic
      | Some n =>
          if String.eqb (Type_ n) "dir" then ret (inl ErrorIsDir)
          else do p <- pathToObject f fsp; ret (inr (PdObject p))
      end
  end.

(** Put the object: copy the reader in to the new object which is
    returned. *)
Definition Put (f : Fs) (body : string) (src : ObjectInfo)
  (options : list OpenOption) : M (error + fsObject) :=
  do r <- put f (srcRemote src) body options;
  match r with
  | inl err => ret (inl (Errorf "failed to put object" err))
  | inr _ =>
      (* Can't set modtime in the same request *)
      do r <- update f (srcRemote src)
                {[ "modified" := anyTime (srcModTime src) ]};
      match r with
      | inl err => ret (inl err)
      | inr fsp => do p <- nodeToObject f fsp; ret (inr (PdObject p))
      end
  end.

(** Mkdir creates the container if it doesn't exist. *)
Definition Mkdir (f : Fs) (dir : string) : M (option error) :=
  do err <- mkdir f dir;
  match err with
  | Some errNotFound => ret (Some ErrorDirNotFound)
  | Some errExists => ret None
  | _ => ret err
  end.

(** Rmdir deletes the root folder; returns an error if it isn't empty. *)
Definition Rmdir (f : Fs) (dir : string) : M (option error) :=
  do err <- delete_ f dir false;
  match err with
  | Some errNotFound => ret (Some ErrorDirNotFound)
  | _ => ret err
  end.

(** Purge all files in the directory specified. *)
Definition Purge (f : Fs) (dir : string) : M (option error) :=
  do err <- delete_ f dir true;
  match err with
  | Some errNotFound => ret (Some ErrorDirNotFound)
  | _ => ret err
  end.

(** [src.Remote()] on the interface value. *)
Definition Remote (src : fsObject) : M string :=
  match src with
  | PdObject p => do n <- deref_base p; ret (Path n)
  | ForeignObject r => ret r
  end.

(** Move src to this remote using server-side move operations. *)
Definition Move (f : Fs) (src : fsObject) (remote : string)
  : M (error + fsObject) :=
  exec Remote src; (* the argument of logRequest *)
  match src with
  | ForeignObject _ => ret (inl ErrorCantMove)
  | PdObject srcObj =>
      do from <- Remote src;
      do err <- rename f from remote;
      match err with
      | Some errNotFound => ret (inl ErrorCantMove)
      | Some err => ret (inl (Errorf "failed to rename file" err))
      | None =>
          exec assign_base srcObj (set_Path remote);
          ret (inr (PdObject srcObj))
      end
  end.

(** DirMove moves the directory srcRemote to dstRemote using server-side
    move operations.  The source Fs [src] is not looked at. *)
Definition DirMove (f : Fs) (src : Fs) (srcRemote dstRemote : string)
  : M (option error) :=
  do err <- rename f srcRemote dstRemote;
  match err with
  | Some errNotFound => ret (Some ErrorDirNotFound)
  | Some errExists => ret (Some ErrorDirExists)
  | _ => ret err
  end.

(** *** Methods of Object *)

Definition object_fs (p : addr) : M Fs :=
  λ w, match objs w !! p with
       | Some o => Some (fs o, w)
       | None => None
       end.

(** SetModTime sets the modification time of the local fs object. *)
Definition SetModTime (o : addr) (modTime : Z) : M (option error) :=
  do n <- deref_base o; (* the argument of logRequest *)
  do f <- object_fs o;
  do n <- deref_base o;
  do r <- update f (Path n) {[ "modified" := anyTime modTime ]};
  match r with
  | inr _ => exec assign_base o (set_Modified modTime); ret None
  | inl err => ret (Some err)
  end.

(** ModTime returns the modification time of the object. *)
Definition ModTime (o : addr) : M Z :=
  do n <- deref_base o; ret (Modified n).

(** Size returns the size of an object in bytes. *)
Definition Size (o : addr) : M Z :=
  do n <- deref_base o; ret (FileSize n).

(** MimeType of the object. *)
Definition MimeType (o : addr) : M string :=
  do n <- deref_base o; ret (FileType n).

(** The identifier of a hash algorithm, hash.Type.  The value of
    hash.SHA256 is fixed outside pixeldrain.go. *)
Variable SHA256 : Z.

(** Hash returns the SHA-256 of an object returning a lowercase hex
    string. *)
Definition Hash (o : addr) (t : Z) : M (string * option error) :=
  if negb (t =? SHA256)%Z then ret (EmptyString, Some ErrUnsupported)
  else do n <- deref_base o; ret (SHA256Sum n, None).

(** *** NewFs *)

(** NewFs constructs an Fs from the path, container:path.  [parsed] is the
    outcome of reading the configuration into [Options]
    (configstruct.Set). *)
Definition NewFs (name root : string) (parsed : error + Options)
  : M (error + Fs) :=
  match parsed with
  | inl err => ret (inl err)
  | inr opt =>
      let prefix := ("/" ++ BucketID opt ++ "/")%string in
      let prefix :=
        if String.eqb root "" then prefix
        else (prefix ++ (root ++ "/"))%string in
      let f := {| name := name; root := root; opt := opt;
                  loggedIn := false; pathPrefix := prefix |} in
      (* the check for the 'me' directory, on the Fs as it is by then *)
      let finish (f : Fs) : M (error + Fs) :=
        if negb (loggedIn f) && String.eqb (BucketID opt) "me"
        then ret (inl (ErrOther
               "authentication required: the 'me' directory can only be accessed while logged in"))
        else ret (inr f) in
      (* If using an accessToken, set the Authorization header *)
      if 1 <? String.length (APIKey opt) then
        (* Check if credentials are correct *)
        do r <- userInfo f;
        match r with
        | inl err => ret (inl (Errorf "failed to get user data" err))
        | inr _ =>
            finish {| name := name; root := root; opt := opt;
                      loggedIn := true; pathPrefix := prefix |}
        end
      else finish f
  end.

(** Name of the remote (as passed into NewFs). *)
Definition Name (f : Fs) : string := name f.

(** Root of the remote (as passed into NewFs). *)
Definition Root (f : Fs) : string := root f.

(** *** List *)

(** [nodeToDirectory] and the directory entry it makes are not in
    pixeldrain.go; they are parameters. *)
Variable Directory : Type.
Variable nodeToDirectory : Fs → FilesystemNode → Directory.

(** fs.DirEntry as [List] makes it: a directory, or an Object of this
    backend. *)
Inductive DirEntry : Type :=
| EntryDirectory (d : Directory)
| EntryObject (p : addr).

(** The loop of [List] over the children, first to last. *)
Fixpoint list_entries (f : Fs) (cs : list FilesystemNode)
  : M (list DirEntry) :=
  match cs with
  | [] => ret []
  | c :: cs' =>
      do e <- (if String.eqb (Type_ c) "dir"
               then ret (EntryDirectory (nodeToDirectory f c))
               else do p <- nodeToObject f c; ret (EntryObject p));
      do es <- list_entries f cs';
      ret (e :: es)
  end.

(** List the objects and directories in dir into entries.  This should
    return ErrDirNotFound if the directory isn't found. *)
Definition List (f : Fs) (dir : string) : M (error + list DirEntry) :=
  do r <- stat f dir;
  match r with
  | inl errNotFound => ret (inl ErrorDirNotFound)
  | inl err => ret (inl err)
  | inr fsp => do es <- list_entries f (Children fsp); ret (inr es)
  end.

(** *** Update and Remove *)

(** [*o = *p]: the Object at [p] copied over the Object at [o]. *)
Definition assign_Object (o p : addr) : M unit :=
  λ w, match objs w !! o, objs w !! p with
       | Some _, Some v =>
           Some (tt, with_objs (<[o := v]> (objs w)) (next w) w)
       | _, _ => None
       end.

(** Update the object with the contents of the io.Reader, modTime and
    size. *)
Definition Update (o : addr) (body : string) (src : ObjectInfo)
  (options : list OpenOption) : M (option error) :=
  do f <- object_fs o;
  do r <- Put f body src options;
  match r with
  | inr (PdObject p) =>
      (* We replace our object with the new object so we don't have to
         copy all the updated values *)
      exec assign_Object o p; ret None
  | inr (ForeignObject _) => panic
  | inl err => ret (Some err)
  end.

(** Remove an object. *)
Definition Remove (o : addr) : M (option error) :=
  do n <- deref_base o; (* the argument of logRequest *)
  do f <- object_fs o;
  do n <- deref_base o;
  delete_ f (Path n) false.

(** *** Well-formed worlds *)

(** Nothing is stored at or above the allocation pointer. *)
Definition fresh_above (w : World) : Prop :=
  ∀ a : addr, next w ≤ a → nodes w !! a = None ∧ objs w !! a = None.

End Backend.

Arguments EntryDirectory {Directory} d.
Arguments EntryObject {Directory} p.
Arguments list_entries {api Directory} nodeToDirectory f cs w.
Arguments List {api Directory} nodeToDirectory f dir w.

(** The entry [List] makes for a child [c], seen in the world [w] after the
    call: the directory entry of [c] when its type is "dir", and otherwise
    an Object of the Fs whose node is [c] and that has no path trace and no
    children. *)
Definition entry_for `{api : Api} {Directory : Type}
  (nodeToDirectory : Fs → FilesystemNode → Directory) (f : Fs) (w : World)
  (c : FilesystemNode) (e : DirEntry Directory) : Prop :=
  if String.eqb (Type_ c) "dir" then e = EntryDirectory (nodeToDirectory f c)
  else ∃ (p : addr) (o : Object),
         e = EntryObject p ∧ objs w !! p = Some o ∧ fs o = f
         ∧ nodes w !! base o = Some c
         ∧ path o = nil_slice ∧ children o = nil_slice.

(** The cells below the allocation pointer of [w] are in [w'] as in [w]. *)
Definition keeps_below `{api : Api} (w w' : World) : Prop :=
  next w ≤ next w'
  ∧ ∀ a : addr, a < next w →
      nodes w' !! a = nodes w !! a ∧ objs w' !! a = objs w !! a.

(** The error [Rmdir] and [Purge] return for an answer of the remote
    delete. *)
Definition deleted (r : option error) : option error :=
  match r with
  | Some errNotFound => Some ErrorDirNotFound
  | _ => r
  end.

(** A call keeps the store in order when, from a world with nothing stored
    at or above the allocation pointer, it ends in such a world and writes
    no cell below the pointer it started from. *)
Definition allocates `{api : Api} {A : Type} (m : M A) : Prop :=
  ∀ (w : World) (a : A) (w' : World),
    fresh_above w → m w = Some (a, w') →
    fresh_above w' ∧ keeps_below w w'.

(** ** A remote service with fixed answers *)

(** The answers the service gives, whatever the arguments. *)
Record Script := {
  on_stat : error + FilesystemPath;
  on_put : error + FilesystemNode;
  on_update : error + FilesystemNode;
  on_mkdir : option error;
  on_delete : option error;
  on_rename : option error;
  on_userInfo : error + UserInfo;
}.

Definition scripted : Api := {|
  Server := Script;
  OpenOption := unit;
  api_stat _ _ s := (on_stat s, s);
  api_put _ _ _ _ s := (on_put s, s);
  api_update _ _ _ s := (on_update s, s);
  api_mkdir _ _ s := (on_mkdir s, s);
  api_delete _ _ _ s := (on_delete s, s);
  api_rename _ _ _ s := (on_rename s, s);
  api_userInfo _ s := (on_userInfo s, s);
|}.

Definition fs0 : Fs :=
  {| name := "pd"; root := "";
     opt := {| APIKey := "key"; BucketID := "me";
               APIURL := "https://pixeldrain.com/api" |};
     loggedIn := true; pathPrefix := "/me/" |}.

Definition file0 : FilesystemNode :=
  {| Type_ := "file"; Path := "a.txt"; Modified := 1700000000000;
     FileSize := 5; FileType := "text/plain"; SHA256Sum := "2cf24dba" |}.

Definition dir0 : FilesystemNode :=
  {| Type_ := "dir"; Path := "docs"; Modified := 1700000000000;
     FileSize := 0; FileType := ""; SHA256Sum := "" |}.

Definition user0 (used space : Z) : UserInfo :=
  {| Username := "u";
     Subscription := {| subName := "free"; StorageSpace := space |};
     StorageSpaceUsed := used |}.

(** Every call succeeds; [stat] resolves to [file0] below the root. *)
Definition script0 : Script :=
  {| on_stat := inr {| fspPath := [dir0; file0]; BaseIndex := 1;
                       Children := [] |};
     on_put := inr file0;
     on_update := inr (set_Modified 1800000000000 file0);
     on_mkdir := None; on_delete := None; on_rename := None;
     on_userInfo := inr (user0 10 100) |}.

Definition set_on_stat (r : error + FilesystemPath) (s : Script) : Script :=
  {| on_stat := r; on_put := on_put s; on_update := on_update s;
     on_mkdir := on_mkdir s; on_delete := on_delete s;
     on_rename := on_rename s; on_userInfo := on_userInfo s |}.

Definition set_on_put (r : error + FilesystemNode) (s : Script) : Script :=
  {| on_stat := on_stat s; on_put := r; on_update := on_update s;
     on_mkdir := on_mkdir s; on_delete := on_delete s;
     on_rename := on_rename s; on_userInfo := on_userInfo s |}.

Definition set_on_update (r : error + FilesystemNode) (s : Script) : Script :=
  {| on_stat := on_stat s; on_put := on_put s; on_update := r;
     on_mkdir := on_mkdir s; on_delete := on_delete s;
     on_rename := on_rename s; on_userInfo := on_userInfo s |}.

Definition set_on_mkdir (r : option error) (s : Script) : Script :=
  {| on_stat := on_stat s; on_put := on_put s; on_update := on_update s;
     on_mkdir := r; on_delete := on_delete s;
     on_rename := on_rename s; on_userInfo := on_userInfo s |}.

Definition set_on_rename (r : option error) (s : Script) : Script :=
  {| on_stat := on_stat s; on_put := on_put s; on_update := on_update s;
     on_mkdir := on_mkdir s; on_delete := on_delete s;
     on_rename := r; on_userInfo := on_userInfo s |}.

Definition set_on_userInfo (r : error + UserInfo) (s : Script) : Script :=
  {| on_stat := on_stat s; on_put := on_put s; on_update := on_update s;
     on_mkdir := on_mkdir s; on_delete := on_delete s;
     on_rename := on_rename s; on_userInfo := r |}.

(** A world with nothing allocated; address 0 is nil. *)
Definition empty_world (s : Script) : @World scripted :=
  @Build_World scripted s [] ∅ ∅ 1.

(** A world that holds one Object, at address 3, whose [base] is the second
    cell of its path slice. *)
Definition world1 (s : Script) : @World scripted :=
  @Build_World scripted s []
    (<[1 := dir0]> (<[2 := file0]> ∅))
    (<[3 := {| fs := fs0; base := 2;
               path := {| sptr := 1; slen := 2 |};
               children := {| sptr := 3; slen := 0 |} |}]> ∅)
    4.

(** Two identifiers of hash algorithms, SHA-256 and MD5. *)
Definition SHA256_0 : Z := 16.
Definition MD5_0 : Z := 1.

(** A directory entry that keeps the path and the modification time. *)
Definition Directory0 : Type := string * Z.
Definition nodeToDirectory0 (f : Fs) (n : FilesystemNode) : Directory0 :=
  (Path n, Modified n).

Definition opt_key (key bucket : string) : Options :=
  {| APIKey := key; BucketID := bucket;
     APIURL := "https://pixeldrain.com/api" |}.

(** ** Example runs *)

Example About_run :
  About fs0 (empty_world script0)
  = Some (inr {| Total := Some 100%Z; Used := Some 10%Z;
                 Free := Some (-90)%Z |},
          @called scripted (CallUserInfo fs0) script0
            (empty_world script0)).
Proof. reflexivity. Qed.

Example NewObject_run :
  fst <$> NewObject fs0 "docs/a.txt" (empty_world script0)
  = Some (inr (PdObject 3)).
Proof. vm_compute. reflexivity. Qed.

Example Move_run :
  (fst <$> Move fs0 (PdObject 3) "b.txt" (world1 script0)
   = Some (inr (PdObject 3)))
  ∧ (w ← snd <$> Move fs0 (PdObject 3) "b.txt" (world1 script0);
     read_slice (nodes w) {| sptr := 1; slen := 2 |})
    = Some [dir0; set_Path "b.txt" file0].
Proof. split; vm_compute; reflexivity. Qed.

(** ** Running the monad *)

Lemma call_run `{api : Api} {A} (c : Call) (op : Server → A * Server)
  (w : World) (r : A) (s : Server) :
  op (server w) = (r, s) → call c op w = Some (r, called c s w).
Proof. intros E. unfold call. rewrite E. reflexivity. Qed.

Lemma bind_run `{api : Api} {A B} (m : M A) (k : A → M B)
  (w w' : World) (a : A) :
  m w = Some (a, w') → bind m k w = k a w'.
Proof. intros E. unfold bind. rewrite E. reflexivity. Qed.

Lemma deref_base_run `{api : Api} (p : addr) (o : Object)
  (n : FilesystemNode) (w : World) :
  objs w !! p = Some o → nodes w !! base o = Some n →
  deref_base p w = Some (n, w).
Proof. intros Eo En. unfold deref_base. rewrite Eo, En. reflexivity. Qed.

Lemma assign_base_run `{api : Api} (p : addr) (o : Object)
  (n : FilesystemNode) (g : FilesystemNode → FilesystemNode) (w : World) :
  objs w !! p = Some o → nodes w !! base o = Some n →
  assign_base p g w
  = Some (tt, with_nodes (<[base o := g n]> (nodes w)) (next w) w).
Proof. intros Eo En. unfold assign_base. rewrite Eo, En. reflexivity. Qed.

Lemma object_fs_run `{api : Api} (p : addr) (o : Object) (w : World) :
  objs w !! p = Some o → object_fs p w = Some (fs o, w).
Proof. intros Eo. unfold object_fs. rewrite Eo. reflexivity. Qed.

Lemma Remote_run `{api : Api} (p : addr) (o : Object) (n : FilesystemNode)
  (w : World) :
  objs w !! p = Some o → nodes w !! base o = Some n →
  Remote (PdObject p) w = Some (Path n, w).
Proof.
  intros Eo En. unfold Remote.
  erewrite bind_run by (eapply deref_base_run; eassumption). reflexivity.
Qed.

(** Rewriting with the equations of the steps of a run. *)
Ltac step :=
  first
    [ erewrite bind_run by (first [ eapply call_run; eassumption
                                  | eapply deref_base_run; eassumption
                                  | eapply assign_base_run; eassumption
                                  | eapply object_fs_run; eassumption
                                  | eapply Remote_run; eassumption
                                  | reflexivity ])
    | progress cbv beta iota ].

(** ** The node store *)

Lemma store_array_lookup_lt (l : list FilesystemNode) (a b : addr)
  (h : gmap addr FilesystemNode) :
  b < a → store_array a l h !! b = h !! b.
Proof.
  revert a. induction l as [|n l IH]; intros a Hb; simpl; [reflexivity|].
  rewrite lookup_insert_ne by lia. apply IH. lia.
Qed.

Lemma store_array_lookup_ge (l : list FilesystemNode) (a b : addr)
  (h : gmap addr FilesystemNode) :
  a + length l ≤ b → store_array a l h !! b = h !! b.
Proof.
  revert a. induction l as [|n l IH]; intros a Hb; simpl in *;
    [reflexivity|].
  rewrite lookup_insert_ne by lia. apply IH. lia.
Qed.

Lemma store_array_lookup (l : list FilesystemNode) (a i : nat)
  (h : gmap addr FilesystemNode) (x : FilesystemNode) :
  l !! i = Some x → store_array a l h !! (a + i) = Some x.
Proof.
  revert a i. induction l as [|n l IH]; intros a i Hi; [discriminate|].
  destruct i as [|i]; simpl in *.
  - rewrite Nat.add_0_r, lookup_insert_eq. congruence.
  - rewrite lookup_insert_ne by lia.
    replace (a + S i) with (S a + i) by lia. apply IH, Hi.
Qed.

Lemma read_slice_intro (h : gmap addr FilesystemNode) (s : slice)
  (l : list FilesystemNode) :
  length l = slen s →
  (∀ i x, l !! i = Some x → h !! (sptr s + i) = Some x) →
  read_slice h s = Some l.
Proof.
  intros Hlen Hl. unfold read_slice. apply mapM_Some_2.
  apply Forall2_same_length_lookup_2.
  - rewrite length_seq. congruence.
  - intros i a x Ha Hx. apply lookup_seq in Ha as [-> _].
    simpl. apply Hl, Hx.
Qed.

Lemma index_Some {A} (l : list A) (i : Z) (x : A) :
  index l i = Some x → l !! Z.to_nat i = Some x ∧ (0 ≤ i)%Z.
Proof.
  unfold index. destruct (Z.ltb_spec i 0); [discriminate|]. auto.
Qed.

Lemma read_slice_elim (h : gmap addr FilesystemNode) (s : slice)
  (l : list FilesystemNode) :
  read_slice h s = Some l →
  length l = slen s
  ∧ ∀ i x, l !! i = Some x → h !! (sptr s + i) = Some x.
Proof.
  unfold read_slice. intros H. apply mapM_Some_1 in H.
  pose proof (Forall2_length _ _ _ H) as Hlen. rewrite length_seq in Hlen.
  split; [congruence|]. intros i x Hx.
  pose proof (lookup_lt_Some _ _ _ Hx) as Hi.
  eapply (Forall2_lookup_lr _ _ _ i i x H); [|exact Hx].
  rewrite lookup_seq_lt by lia. reflexivity.
Qed.

(** A write to a cell outside a slice does not show in the slice. *)
Lemma read_slice_insert_outside (h : gmap addr FilesystemNode) (s : slice)
  (l : list FilesystemNode) (a : addr) (x : FilesystemNode) :
  read_slice h s = Some l →
  a < sptr s ∨ sptr s + slen s ≤ a →
  read_slice (<[a := x]> h) s = Some l.
Proof.
  intros H Ha. destruct (read_slice_elim _ _ _ H) as [Hlen Hl].
  apply read_slice_intro; [exact Hlen|]. intros i y Hy.
  pose proof (lookup_lt_Some _ _ _ Hy).
  rewrite lookup_insert_ne by lia. apply Hl, Hy.
Qed.

(** A write to the cell [i] of a slice shows as its element [i]. *)
Lemma read_slice_insert_inside (h : gmap addr FilesystemNode) (s : slice)
  (l : list FilesystemNode) (i : nat) (x : FilesystemNode) :
  read_slice h s = Some l → i < slen s →
  read_slice (<[sptr s + i := x]> h) s = Some (<[i := x]> l).
Proof.
  intros H Hi. destruct (read_slice_elim _ _ _ H) as [Hlen Hl].
  apply read_slice_intro; [rewrite length_insert; exact Hlen|].
  intros j y Hy. destruct (decide (i = j)) as [->|Hne].
  - rewrite list_lookup_insert_eq in Hy by lia.
    rewrite lookup_insert_eq. exact Hy.
  - rewrite list_lookup_insert_ne in Hy by exact Hne.
    rewrite lookup_insert_ne by lia. apply Hl, Hy.
Qed.

(** ** About *)

(** The usage record [About] returns for an account: [Free] is the
    used space minus the total, in [int64] arithmetic. *)
Lemma About_run_ok `{api : Api} (f : Fs) (w : World) (user : UserInfo)
  (s' : Server) :
  api_userInfo f (server w) = (inr user, s') →
  let total := if (StorageSpace (Subscription user) =? -1)%Z
               then (10 ^ 15)%Z else StorageSpace (Subscription user) in
  About f w
  = Some (inr {| Total := Some total;
                 Used := Some (StorageSpaceUsed user);
                 Free := Some (int64_sub (StorageSpaceUsed user) total) |},
          called (CallUserInfo f) s' w).
Proof.
  intros E total. unfold About, userInfo.
  erewrite bind_run by (eapply call_run; exact E).
  cbv beta iota zeta. subst total. destruct (StorageSpace (Subscription user) =? -1)%Z;
    reflexivity.
Qed.

Lemma int64_wrap_id (z : Z) : int64_range z → int64_wrap z = z.
Proof.
  unfold int64_range, int64_wrap. intros H.
  rewrite Z.mod_small by lia. lia.
Qed.

(** For an account with a limit, and below it, the free space [About]
    reports is negative: it is the used space minus the limit. *)
Lemma About_free_negative `{api : Api} (f : Fs) (w : World) (user : UserInfo)
  (s' : Server) :
  api_userInfo f (server w) = (inr user, s') →
  int64_range (StorageSpace (Subscription user)) →
  (0 ≤ StorageSpaceUsed user < StorageSpace (Subscription user))%Z →
  ∃ usage free,
    About f w = Some (inr usage, called (CallUserInfo f) s' w)
    ∧ Free usage = Some free
    ∧ free = (StorageSpaceUsed user - StorageSpace (Subscription user))%Z
    ∧ (free < 0)%Z.
Proof.
  intros E Hr Hu. rewrite (About_run_ok f w user s' E).
  destruct (Z.eqb_spec (StorageSpace (Subscription user)) (-1)); [lia|].
  eexists _, _. split; [reflexivity|]. split; [reflexivity|].
  unfold int64_sub. rewrite int64_wrap_id by (unfold int64_range in *; lia).
  split; [reflexivity|lia].
Qed.

(** C1, at an account that uses 10 bytes of 100: the free space [About]
    reports is -90, the used space minus the total, and not the 90 bytes
    that total minus used gives; it is negative although used is at most
    total. *)
Theorem About_free_10_of_100 :
  ∃ usage w',
    About fs0 (empty_world (set_on_userInfo (inr (user0 10 100)) script0))
    = Some (inr usage, w')
    ∧ Total usage = Some 100%Z ∧ Used usage = Some 10%Z
    ∧ Free usage = Some (-90)%Z
    ∧ Free usage ≠ Some (100 - 10)%Z.
Proof.
  eexists _, _. split; [vm_compute; reflexivity|].
  repeat split; discriminate.
Qed.

(** C8: when the storage limit of the account is the sentinel -1, the total
    [About] returns is the fixed ceiling of 10^15 bytes (1 PB). *)
Theorem About_unlimited_total `{api : Api} (f : Fs) (w : World)
  (user : UserInfo) (s' : Server) :
  api_userInfo f (server w) = (inr user, s') →
  StorageSpace (Subscription user) = (-1)%Z →
  ∃ usage,
    About f w = Some (inr usage, called (CallUserInfo f) s' w)
    ∧ Total usage = Some (10 ^ 15)%Z
    ∧ Total usage = Some 1000000000000000%Z.
Proof.
  intros E Hs. rewrite (About_run_ok f w user s' E), Hs.
  eexists. split; [reflexivity|]. split; reflexivity.
Qed.

Lemma About_unlimited_total_witness :
  ∃ usage,
    @About scripted fs0
      (empty_world (set_on_userInfo (inr (user0 10 (-1))) script0))
    = Some (inr usage,
            @called scripted (CallUserInfo fs0)
              (set_on_userInfo (inr (user0 10 (-1))) script0)
              (empty_world (set_on_userInfo (inr (user0 10 (-1))) script0)))
    ∧ Total usage = Some (10 ^ 15)%Z
    ∧ Total usage = Some 1000000000000000%Z.
Proof.
  apply (@About_unlimited_total scripted fs0
           (empty_world (set_on_userInfo (inr (user0 10 (-1))) script0))
           (user0 10 (-1))
           (set_on_userInfo (inr (user0 10 (-1))) script0));
    reflexivity.
Defined.

(** ** Move and DirMove *)

(** C7: a source object that is not an Object of this backend makes [Move]
    return CantMove at once: the world, and with it the trace of calls to
    the remote service, is as before. *)
Theorem Move_foreign_CantMove `{api : Api} (f : Fs) (r remote : string)
  (w : World) :
  Move f (ForeignObject r) remote w = Some (inl ErrorCantMove, w).
Proof. reflexivity. Qed.

(** C3: on the same failing rename, [Move] and [DirMove] answer
    differently.  When the rename reports the source not found, [Move]
    returns CantMove and [DirMove] returns DirNotFound; when it reports that
    the destination exists, [DirMove] returns DirExists and [Move] returns
    the error wrapped as a failed rename, which is none of the signals of
    the filesystem interface. *)
Theorem rename_error_Move_DirMove `{api : Api} (f : Fs) (p : addr)
  (o : Object) (n : FilesystemNode) (remote : string) (w : World)
  (s' : Server) :
  objs w !! p = Some o → nodes w !! base o = Some n →
  let w1 := called (CallRename f (Path n) remote) s' w in
  (api_rename f (Path n) remote (server w) = (Some errNotFound, s') →
   Move f (PdObject p) remote w = Some (inl ErrorCantMove, w1)
   ∧ DirMove f f (Path n) remote w = Some (Some ErrorDirNotFound, w1))
  ∧ (api_rename f (Path n) remote (server w) = (Some errExists, s') →
     DirMove f f (Path n) remote w = Some (Some ErrorDirExists, w1)
     ∧ Move f (PdObject p) remote w
       = Some (inl (Errorf "failed to rename file" errExists), w1)).
Proof.
  intros Eo En w1. split; intros Er; split;
    unfold Move, DirMove, rename; repeat step; reflexivity.
Qed.

Lemma rename_error_Move_DirMove_witness :
  (@Move scripted fs0 (PdObject 3) "b.txt"
     (world1 (set_on_rename (Some errNotFound) script0))
   = Some (inl ErrorCantMove,
           @called scripted (CallRename fs0 "a.txt" "b.txt")
             (set_on_rename (Some errNotFound) script0)
             (world1 (set_on_rename (Some errNotFound) script0)))
   ∧ @DirMove scripted fs0 fs0 "a.txt" "b.txt"
       (world1 (set_on_rename (Some errNotFound) script0))
     = Some (Some ErrorDirNotFound,
             @called scripted (CallRename fs0 "a.txt" "b.txt")
               (set_on_rename (Some errNotFound) script0)
               (world1 (set_on_rename (Some errNotFound) script0))))
  ∧ (@DirMove scripted fs0 fs0 "a.txt" "b.txt"
       (world1 (set_on_rename (Some errExists) script0))
     = Some (Some ErrorDirExists,
             @called scripted (CallRename fs0 "a.txt" "b.txt")
               (set_on_rename (Some errExists) script0)
               (world1 (set_on_rename (Some errExists) script0)))
     ∧ @Move scripted fs0 (PdObject 3) "b.txt"
         (world1 (set_on_rename (Some errExists) script0))
       = Some (inl (Errorf "failed to rename file" errExists),
               @called scripted (CallRename fs0 "a.txt" "b.txt")
                 (set_on_rename (Some errExists) script0)
                 (world1 (set_on_rename (Some errExists) script0)))).
Proof.
  split.
  - apply (proj1 (@rename_error_Move_DirMove scripted fs0 3
                    {| fs := fs0; base := 2;
                       path := {| sptr := 1; slen := 2 |};
                       children := {| sptr := 3; slen := 0 |} |}
                    file0 "b.txt"
                    (world1 (set_on_rename (Some errNotFound) script0))
                    (set_on_rename (Some errNotFound) script0)
                    eq_refl eq_refl)).
    reflexivity.
  - apply (proj2 (@rename_error_Move_DirMove scripted fs0 3
                    {| fs := fs0; base := 2;
                       path := {| sptr := 1; slen := 2 |};
                       children := {| sptr := 3; slen := 0 |} |}
                    file0 "b.txt"
                    (world1 (set_on_rename (Some errExists) script0))
                    (set_on_rename (Some errExists) script0)
                    eq_refl eq_refl)).
    reflexivity.
Defined.

(** C6: a successful [Move] of an Object of this backend returns the same
    Object and writes one thing, the path of the node its [base] points to.
    The Object itself ([fs], [base], the [path] and [children] slices) is as
    before, the node keeps its size, hash, mime type, modification time and
    type, and every other node of the store is as before. *)
Theorem Move_updates_only_base_path `{api : Api} (f : Fs) (p : addr)
  (o : Object) (n : FilesystemNode) (remote : string) (w : World)
  (s' : Server) :
  objs w !! p = Some o → nodes w !! base o = Some n →
  api_rename f (Path n) remote (server w) = (None, s') →
  ∃ w' n',
    Move f (PdObject p) remote w = Some (inr (PdObject p), w')
    ∧ objs w' = objs w
    ∧ nodes w' !! base o = Some n'
    ∧ Path n' = remote
    ∧ FileSize n' = FileSize n
    ∧ SHA256Sum n' = SHA256Sum n
    ∧ FileType n' = FileType n
    ∧ Modified n' = Modified n
    ∧ Type_ n' = Type_ n
    ∧ (∀ a : addr, a ≠ base o → nodes w' !! a = nodes w !! a).
Proof.
  intros Eo En Er.
  exists (with_nodes (<[base o := set_Path remote n]> (nodes w)) (next w)
            (called (CallRename f (Path n) remote) s' w)),
    (set_Path remote n).
  split.
  { unfold Move, rename. repeat step. reflexivity. }
  split; [reflexivity|].
  split; [apply lookup_insert_eq|].
  repeat (split; [reflexivity|]).
  intros a Ha. simpl. apply lookup_insert_ne. congruence.
Qed.

Lemma Move_updates_only_base_path_witness :
  ∃ w' n',
    @Move scripted fs0 (PdObject 3) "b.txt" (world1 script0)
    = Some (inr (PdObject 3), w')
    ∧ objs w' = objs (world1 script0)
    ∧ nodes w' !! 2 = Some n'
    ∧ Path n' = "b.txt"
    ∧ FileSize n' = 5%Z
    ∧ SHA256Sum n' = "2cf24dba"
    ∧ FileType n' = "text/plain"
    ∧ Modified n' = 1700000000000%Z
    ∧ Type_ n' = "file"
    ∧ (∀ a : addr, a ≠ 2 → nodes w' !! a = nodes (world1 script0) !! a).
Proof.
  exact (@Move_updates_only_base_path scripted fs0 3
           {| fs := fs0; base := 2;
              path := {| sptr := 1; slen := 2 |};
              children := {| sptr := 3; slen := 0 |} |}
           file0 "b.txt" (world1 script0) script0
           eq_refl eq_refl eq_refl).
Defined.

(** What a successful [Move] shows through the slices of the Object: the
    children are as before when [base] is no cell of theirs, and when [base]
    is the cell [i] of the path slice, the element [i] of the path has the
    new path. *)
Lemma Move_slices `{api : Api} (f : Fs) (p : addr) (o : Object)
  (n : FilesystemNode) (remote : string) (w : World) (s' : Server)
  (ps cs : list FilesystemNode) (i : nat) :
  objs w !! p = Some o → nodes w !! base o = Some n →
  api_rename f (Path n) remote (server w) = (None, s') →
  read_slice (nodes w) (path o) = Some ps →
  read_slice (nodes w) (children o) = Some cs →
  base o = sptr (path o) + i → i < slen (path o) →
  base o < sptr (children o)
  ∨ sptr (children o) + slen (children o) ≤ base o →
  ∃ w',
    Move f (PdObject p) remote w = Some (inr (PdObject p), w')
    ∧ read_slice (nodes w') (path o) = Some (<[i := set_Path remote n]> ps)
    ∧ read_slice (nodes w') (children o) = Some cs.
Proof.
  intros Eo En Er Hps Hcs Hb Hi Hc.
  eexists. split.
  { unfold Move, rename. repeat step. reflexivity. }
  simpl. split.
  - rewrite Hb. apply read_slice_insert_inside; assumption.
  - apply read_slice_insert_outside; assumption.
Qed.

(** After a successful [Move] the Object answers [Size], [ModTime] and
    [MimeType] as before, and [Remote] with the new path. *)
Lemma Move_keeps_getters `{api : Api} (f : Fs) (p : addr) (o : Object)
  (n : FilesystemNode) (remote : string) (w : World) (s' : Server) :
  objs w !! p = Some o → nodes w !! base o = Some n →
  api_rename f (Path n) remote (server w) = (None, s') →
  ∃ w',
    Move f (PdObject p) remote w = Some (inr (PdObject p), w')
    ∧ fst <$> Remote (PdObject p) w' = Some remote
    ∧ fst <$> Size p w' = fst <$> Size p w
    ∧ fst <$> ModTime p w' = fst <$> ModTime p w
    ∧ fst <$> MimeType p w' = fst <$> MimeType p w.
Proof.
  intros Eo En Er. eexists. split.
  { unfold Move, rename. repeat step. reflexivity. }
  unfold Remote, Size, ModTime, MimeType, bind, deref_base. simpl.
  rewrite Eo, En, lookup_insert_eq. repeat split.
Qed.

(** ** Mkdir *)

(** C4: [Mkdir] returns no error when the remote create reports that the
    directory exists, and DirNotFound when it reports the path not found.
    Every other error of the remote is returned as it is, so the only
    remote error that [Mkdir] turns into success is "already exists". *)
Theorem Mkdir_errors `{api : Api} (f : Fs) (dir : string) (w : World)
  (s' : Server) :
  let w1 := called (CallMkdir f dir) s' w in
  (api_mkdir f dir (server w) = (Some errExists, s') →
   Mkdir f dir w = Some (None, w1))
  ∧ (api_mkdir f dir (server w) = (Some errNotFound, s') →
     Mkdir f dir w = Some (Some ErrorDirNotFound, w1))
  ∧ (∀ e : error,
       api_mkdir f dir (server w) = (Some e, s') →
       e ≠ errExists → e ≠ errNotFound →
       Mkdir f dir w = Some (Some e, w1))
  ∧ (∀ e : error,
       api_mkdir f dir (server w) = (Some e, s') →
       Mkdir f dir w = Some (None, w1) → e = errExists).
Proof.
  intros w1. unfold Mkdir, mkdir.
  split; [|split; [|split]].
  - intros E. repeat step. reflexivity.
  - intros E. repeat step. reflexivity.
  - intros e E H1 H2. repeat step.
    destruct e; first [contradiction | reflexivity].
  - intros e E. repeat step.
    destruct e; cbv beta iota delta [ret]; intros H;
      first [reflexivity | discriminate H].
Qed.

Lemma Mkdir_errors_witness :
  @Mkdir scripted fs0 "docs" (empty_world (set_on_mkdir (Some errExists) script0))
  = Some (None,
          @called scripted (CallMkdir fs0 "docs")
            (set_on_mkdir (Some errExists) script0)
            (empty_world (set_on_mkdir (Some errExists) script0)))
  ∧ @Mkdir scripted fs0 "x/docs"
      (empty_world (set_on_mkdir (Some errNotFound) script0))
    = Some (Some ErrorDirNotFound,
            @called scripted (CallMkdir fs0 "x/docs")
              (set_on_mkdir (Some errNotFound) script0)
              (empty_world (set_on_mkdir (Some errNotFound) script0)))
  ∧ @Mkdir scripted fs0 "docs"
      (empty_world (set_on_mkdir (Some (ErrOther "timeout")) script0))
    = Some (Some (ErrOther "timeout"),
            @called scripted (CallMkdir fs0 "docs")
              (set_on_mkdir (Some (ErrOther "timeout")) script0)
              (empty_world (set_on_mkdir (Some (ErrOther "timeout")) script0)))
  ∧ errExists = errExists.
Proof.
  split; [|split; [|split]].
  - apply (proj1 (@Mkdir_errors scripted fs0 "docs"
                    (empty_world (set_on_mkdir (Some errExists) script0))
                    (set_on_mkdir (Some errExists) script0))).
    reflexivity.
  - apply (proj1 (proj2 (@Mkdir_errors scripted fs0 "x/docs"
                    (empty_world (set_on_mkdir (Some errNotFound) script0))
                    (set_on_mkdir (Some errNotFound) script0)))).
    reflexivity.
  - apply (proj1 (proj2 (proj2 (@Mkdir_errors scripted fs0 "docs"
             (empty_world (set_on_mkdir (Some (ErrOther "timeout")) script0))
             (set_on_mkdir (Some (ErrOther "timeout")) script0))))
             (ErrOther "timeout"));
      [reflexivity | discriminate | discriminate].
  - apply (proj2 (proj2 (proj2 (@Mkdir_errors scripted fs0 "docs"
             (empty_world (set_on_mkdir (Some errExists) script0))
             (set_on_mkdir (Some errExists) script0))))
             errExists); reflexivity.
Defined.

(** ** Methods of Object *)

(** C9: [Hash] returns the SHA-256 sum stored in the node of the object,
    with no error, when the requested type is SHA256; for every other type
    it returns the empty string together with the error ErrUnsupported,
    whatever the object. *)
Theorem Hash_only_SHA256 `{api : Api} (SHA256 : Z) (p : addr) (w : World) :
  (∀ t : Z, t ≠ SHA256 →
     Hash SHA256 p t w = Some (("", Some ErrUnsupported), w))
  ∧ (∀ (o : Object) (n : FilesystemNode),
       objs w !! p = Some o → nodes w !! base o = Some n →
       Hash SHA256 p SHA256 w = Some ((SHA256Sum n, None), w)).
Proof.
  split.
  - intros t Ht. unfold Hash.
    destruct (Z.eqb_spec t SHA256); [contradiction|reflexivity].
  - intros o n Eo En. unfold Hash. rewrite Z.eqb_refl. simpl.
    repeat step. reflexivity.
Qed.

Lemma Hash_only_SHA256_witness :
  @Hash scripted SHA256_0 3 MD5_0 (world1 script0)
  = Some (("", Some ErrUnsupported), world1 script0)
  ∧ @Hash scripted SHA256_0 3 SHA256_0 (world1 script0)
    = Some (("2cf24dba", None), world1 script0).
Proof.
  split.
  - apply (proj1 (@Hash_only_SHA256 scripted SHA256_0 3 (world1 script0))
             MD5_0).
    discriminate.
  - apply (proj2 (@Hash_only_SHA256 scripted SHA256_0 3 (world1 script0))
             {| fs := fs0; base := 2;
                path := {| sptr := 1; slen := 2 |};
                children := {| sptr := 3; slen := 0 |} |}
             file0);
      reflexivity.
Defined.

(** C10: [SetModTime] writes the new time into the node of the object
    exactly when the remote update succeeds.  When the update returns an
    error, that error is returned and the stores of nodes and Objects are as
    before; when it succeeds, the one write is [Modified] of the node that
    [base] points to. *)
Theorem SetModTime_writes_on_success `{api : Api} (p : addr) (o : Object)
  (n : FilesystemNode) (t : Z) (w : World) (s' : Server) :
  objs w !! p = Some o → nodes w !! base o = Some n →
  let fields : gmap string any := {[ "modified" := anyTime t ]} in
  let w1 := called (CallUpdate (fs o) (Path n) fields) s' w in
  (∀ e : error,
     api_update (fs o) (Path n) fields (server w) = (inl e, s') →
     SetModTime p t w = Some (Some e, w1)
     ∧ nodes w1 = nodes w ∧ objs w1 = objs w)
  ∧ (∀ r : FilesystemNode,
       api_update (fs o) (Path n) fields (server w) = (inr r, s') →
       ∃ w',
         SetModTime p t w = Some (None, w')
         ∧ objs w' = objs w
         ∧ nodes w' = <[base o := set_Modified t n]> (nodes w)
         ∧ Modified (set_Modified t n) = t
         ∧ Path (set_Modified t n) = Path n
         ∧ FileSize (set_Modified t n) = FileSize n
         ∧ SHA256Sum (set_Modified t n) = SHA256Sum n
         ∧ FileType (set_Modified t n) = FileType n
         ∧ Type_ (set_Modified t n) = Type_ n).
Proof.
  intros Eo En fields w1. split.
  - intros e E. split; [|split; reflexivity].
    unfold SetModTime, update. repeat step. reflexivity.
  - intros r E.
    exists (with_nodes (<[base o := set_Modified t n]> (nodes w)) (next w)
              w1).
    split; [|repeat split].
    unfold SetModTime, update. repeat step. reflexivity.
Qed.

Lemma SetModTime_writes_on_success_witness :
  (@SetModTime scripted 3 42 (world1 (set_on_update (inl errNotFound) script0))
   = Some (Some errNotFound,
           @called scripted
             (CallUpdate fs0 "a.txt" {[ "modified" := anyTime 42 ]})
             (set_on_update (inl errNotFound) script0)
             (world1 (set_on_update (inl errNotFound) script0))))
  ∧ (∃ w', @SetModTime scripted 3 42 (world1 script0) = Some (None, w')
           ∧ nodes w' = <[2 := set_Modified 42 file0]> (nodes (world1 script0))).
Proof.
  split.
  - apply (proj1 (@SetModTime_writes_on_success scripted 3
                    {| fs := fs0; base := 2;
                       path := {| sptr := 1; slen := 2 |};
                       children := {| sptr := 3; slen := 0 |} |}
                    file0 42
                    (world1 (set_on_update (inl errNotFound) script0))
                    (set_on_update (inl errNotFound) script0)
                    eq_refl eq_refl) errNotFound eq_refl).
  - destruct (proj2 (@SetModTime_writes_on_success scripted 3
                       {| fs := fs0; base := 2;
                          path := {| sptr := 1; slen := 2 |};
                          children := {| sptr := 3; slen := 0 |} |}
                       file0 42 (world1 script0) script0
                       eq_refl eq_refl)
                (set_Modified 1800000000000 file0) eq_refl)
      as (w' & H1 & _ & H2 & _).
    exists w'. split; assumption.
Defined.

(** ** NewObject *)

(** Any error of the resolver other than "not found" is returned as it
    is. *)
Lemma NewObject_other_error `{api : Api} (f : Fs) (remote : string)
  (w : World) (e : error) (s' : Server) :
  api_stat f remote (server w) = (inl e, s') → e ≠ errNotFound →
  NewObject f remote w = Some (inl e, called (CallStat f remote) s' w).
Proof.
  intros E He. unfold NewObject, stat. repeat step.
  destruct e; first [contradiction | reflexivity].
Qed.

(** C2: [NewObject] returns ObjectNotFound when the resolver reports the
    path not found; it returns IsDir, and allocates no Object, when the type
    of the resolved target node is "dir"; and when the target is resolved
    and is not a directory it returns a new Object of this Fs whose [base]
    points to the target node, the cell at [BaseIndex] of its path slice,
    and whose [path] and [children] hold the stat result. *)
Theorem NewObject_result `{api : Api} (f : Fs) (remote : string) (w : World)
  (s' : Server) :
  let w1 := called (CallStat f remote) s' w in
  (api_stat f remote (server w) = (inl errNotFound, s') →
   NewObject f remote w = Some (inl ErrorObjectNotFound, w1))
  ∧ (∀ (fsp : FilesystemPath) (n : FilesystemNode),
       api_stat f remote (server w) = (inr fsp, s') →
       index (fspPath fsp) (BaseIndex fsp) = Some n →
       Type_ n = "dir" →
       NewObject f remote w = Some (inl ErrorIsDir, w1))
  ∧ (∀ (fsp : FilesystemPath) (n : FilesystemNode),
       api_stat f remote (server w) = (inr fsp, s') →
       index (fspPath fsp) (BaseIndex fsp) = Some n →
       Type_ n ≠ "dir" →
       ∃ (p : addr) (o : Object) (w' : World),
         NewObject f remote w = Some (inr (PdObject p), w')
         ∧ objs w' !! p = Some o
         ∧ fs o = f
         ∧ base o = sptr (path o) + Z.to_nat (BaseIndex fsp)
         ∧ nodes w' !! base o = Some n
         ∧ read_slice (nodes w') (path o) = Some (fspPath fsp)
         ∧ read_slice (nodes w') (children o) = Some (Children fsp)
         ∧ trace w' = trace w ++ [CallStat f remote]).
Proof.
  intros w1. split; [|split].
  - intros E. unfold NewObject, stat. repeat step. reflexivity.
  - intros fsp n E Hn Hdir. unfold NewObject, stat. repeat step.
    rewrite Hn, Hdir. reflexivity.
  - intros fsp n E Hn Hdir.
    apply String.eqb_neq in Hdir.
    destruct (index_Some _ _ _ Hn) as [Hi _].
    pose proof (lookup_lt_Some _ _ _ Hi) as Hlt.
    eexists _, _, _. split.
    { unfold NewObject, stat. repeat step. rewrite Hn, Hdir.
      unfold pathToObject. rewrite Hn. reflexivity. }
    simpl. split; [apply lookup_insert_eq|].
    split; [reflexivity|]. split; [reflexivity|].
    split; [|split; [|split; [|reflexivity]]]; simpl.
    + rewrite store_array_lookup_lt by lia.
      apply store_array_lookup, Hi.
    + apply read_slice_intro; [reflexivity|]. simpl. intros i x Hx.
      pose proof (lookup_lt_Some _ _ _ Hx).
      rewrite store_array_lookup_lt by lia.
      apply store_array_lookup, Hx.
    + apply read_slice_intro; [reflexivity|]. simpl. intros i x Hx.
      apply store_array_lookup, Hx.
Qed.

Lemma NewObject_result_witness :
  @NewObject scripted fs0 "nope"
    (empty_world (set_on_stat (inl errNotFound) script0))
  = Some (inl ErrorObjectNotFound,
          @called scripted (CallStat fs0 "nope")
            (set_on_stat (inl errNotFound) script0)
            (empty_world (set_on_stat (inl errNotFound) script0)))
  ∧ @NewObject scripted fs0 "docs"
      (empty_world
         (set_on_stat (inr {| fspPath := [dir0]; BaseIndex := 0;
                              Children := [file0] |}) script0))
    = Some (inl ErrorIsDir,
            @called scripted (CallStat fs0 "docs")
              (set_on_stat (inr {| fspPath := [dir0]; BaseIndex := 0;
                                   Children := [file0] |}) script0)
              (empty_world
                 (set_on_stat (inr {| fspPath := [dir0]; BaseIndex := 0;
                                      Children := [file0] |}) script0)))
  ∧ ∃ (p : addr) (o : Object) (w' : World),
      @NewObject scripted fs0 "docs/a.txt" (empty_world script0)
      = Some (inr (PdObject p), w')
      ∧ objs w' !! p = Some o
      ∧ nodes w' !! base o = Some file0.
Proof.
  split; [|split].
  - apply (proj1 (@NewObject_result scripted fs0 "nope"
                    (empty_world (set_on_stat (inl errNotFound) script0))
                    (set_on_stat (inl errNotFound) script0))).
    reflexivity.
  - apply (proj1 (proj2 (@NewObject_result scripted fs0 "docs"
             (empty_world
                (set_on_stat (inr {| fspPath := [dir0]; BaseIndex := 0;
                                     Children := [file0] |}) script0))
             (set_on_stat (inr {| fspPath := [dir0]; BaseIndex := 0;
                                  Children := [file0] |}) script0)))
             {| fspPath := [dir0]; BaseIndex := 0; Children := [file0] |}
             dir0);
      reflexivity.
  - destruct (proj2 (proj2 (@NewObject_result scripted fs0 "docs/a.txt"
                (empty_world script0) script0))
                {| fspPath := [dir0; file0]; BaseIndex := 1;
                   Children := [] |}
                file0 eq_refl eq_refl)
      as (p & o & w' & H1 & H2 & _ & _ & H3 & _).
    { discriminate. }
    exists p, o, w'. repeat split; assumption.
Defined.

(** ** Put *)

(** C5: [Put] calls the upload first and the metadata update second, the
    update carrying the modification time of the source.  When both
    succeed it returns a new Object whose node is the one the update
    returned, whatever node the upload returned.  When the upload fails the
    update is not called, and when either fails [Put] returns an error and
    allocates no Object. *)
Theorem Put_upload_then_update `{api : Api} (f : Fs) (body : string)
  (src : ObjectInfo) (options : list OpenOption) (w : World) :
  let fields : gmap string any :=
    {[ "modified" := anyTime (srcModTime src) ]} in
  let c1 := CallPut f (srcRemote src) body options in
  let c2 := CallUpdate f (srcRemote src) fields in
  (∀ (e : error) (s1 : Server),
     api_put f (srcRemote src) body options (server w) = (inl e, s1) →
     Put f body src options w
     = Some (inl (Errorf "failed to put object" e), called c1 s1 w))
  ∧ (∀ (up : FilesystemNode) (s1 : Server) (e : error) (s2 : Server),
       api_put f (srcRemote src) body options (server w) = (inr up, s1) →
       api_update f (srcRemote src) fields s1 = (inl e, s2) →
       Put f body src options w
       = Some (inl e, called c2 s2 (called c1 s1 w)))
  ∧ (∀ (up : FilesystemNode) (s1 : Server) (node : FilesystemNode)
       (s2 : Server),
       api_put f (srcRemote src) body options (server w) = (inr up, s1) →
       api_update f (srcRemote src) fields s1 = (inr node, s2) →
       Put f body src options w
       = bind (nodeToObject f node) (λ p, ret (inr (PdObject p)))
           (called c2 s2 (called c1 s1 w))
       ∧ ∃ (p : addr) (o : Object) (w' : World),
           Put f body src options w = Some (inr (PdObject p), w')
           ∧ trace w' = trace w ++ [c1; c2]
           ∧ server w' = s2
           ∧ objs w' !! p = Some o
           ∧ fs o = f
           ∧ nodes w' !! base o = Some node).
Proof.
  intros fields c1 c2. split; [|split].
  - intros e s1 E1. unfold Put, put. repeat step. reflexivity.
  - intros up s1 e s2 E1 E2. unfold Put, put, update. repeat step.
    reflexivity.
  - intros up s1 node s2 E1 E2.
    assert (Put f body src options w
            = bind (nodeToObject f node) (λ p, ret (inr (PdObject p)))
                (called c2 s2 (called c1 s1 w))) as E.
    { unfold Put, put, update. repeat step. reflexivity. }
    split; [exact E|]. rewrite E. eexists _, _, _.
    split; [reflexivity|].
    simpl. split; [rewrite <- app_assoc; reflexivity|].
    split; [reflexivity|]. split; [apply lookup_insert_eq|].
    split; [reflexivity|]. simpl. apply lookup_insert_eq.
Qed.

Lemma Put_upload_then_update_witness :
  @Put scripted fs0 "hello" {| srcRemote := "a.txt"; srcModTime := 7;
                               srcSize := 5 |} []
    (empty_world (set_on_put (inl (ErrOther "quota")) script0))
  = Some (inl (Errorf "failed to put object" (ErrOther "quota")),
          @called scripted (CallPut fs0 "a.txt" "hello" [])
            (set_on_put (inl (ErrOther "quota")) script0)
            (empty_world (set_on_put (inl (ErrOther "quota")) script0)))
  ∧ @Put scripted fs0 "hello" {| srcRemote := "a.txt"; srcModTime := 7;
                                 srcSize := 5 |} []
      (empty_world (set_on_update (inl errNotFound) script0))
    = Some (inl errNotFound,
            @called scripted
              (CallUpdate fs0 "a.txt" {[ "modified" := anyTime 7 ]})
              (set_on_update (inl errNotFound) script0)
              (@called scripted (CallPut fs0 "a.txt" "hello" [])
                 (set_on_update (inl errNotFound) script0)
                 (empty_world (set_on_update (inl errNotFound) script0))))
  ∧ ∃ (p : addr) (o : Object) (w' : World),
      @Put scripted fs0 "hello" {| srcRemote := "a.txt"; srcModTime := 7;
                                   srcSize := 5 |} []
        (empty_world script0)
      = Some (inr (PdObject p), w')
      ∧ objs w' !! p = Some o
      ∧ nodes w' !! base o = Some (set_Modified 1800000000000 file0).
Proof.
  split; [|split].
  - apply (proj1 (@Put_upload_then_update scripted fs0 "hello"
                    {| srcRemote := "a.txt"; srcModTime := 7; srcSize := 5 |}
                    []
                    (empty_world
                       (set_on_put (inl (ErrOther "quota")) script0)))).
    reflexivity.
  - apply (proj1 (proj2 (@Put_upload_then_update scripted fs0 "hello"
                    {| srcRemote := "a.txt"; srcModTime := 7; srcSize := 5 |}
                    []
                    (empty_world
                       (set_on_update (inl errNotFound) script0))))
             file0);
      reflexivity.
  - destruct (proj2 (proj2 (@Put_upload_then_update scripted fs0 "hello"
                    {| srcRemote := "a.txt"; srcModTime := 7; srcSize := 5 |}
                    [] (empty_world script0)))
                file0 script0 (set_Modified 1800000000000 file0) script0
                eq_refl eq_refl)
      as (_ & p & o & w' & H1 & _ & _ & H2 & _ & H3).
    exists p, o, w'. repeat split; assumption.
Defined.

(** ** NewFs *)

Lemma string_app_assoc (s1 s2 s3 : string) :
  ((s1 ++ s2) ++ s3 = s1 ++ (s2 ++ s3))%string.
Proof.
  induction s1 as [|a s1 IH]; [reflexivity|].
  change (String a ((s1 ++ s2) ++ s3) = String a (s1 ++ (s2 ++ s3)))%string.
  f_equal. exact IH.
Qed.

(** The prefix [NewFs] computes begins and ends with a slash. *)
Lemma NewFs_prefix_slashes (bucket root : string) :
  let prefix :=
    (if String.eqb root "" then "/" ++ bucket ++ "/"
     else ("/" ++ bucket ++ "/") ++ (root ++ "/"))%string in
  (∃ rest, prefix = "/" ++ rest)%string ∧ (∃ pre, prefix = pre ++ "/")%string.
Proof.
  simpl. destruct (String.eqb root ""); split.
  - eexists. reflexivity.
  - exists ("/" ++ bucket)%string. reflexivity.
  - eexists. reflexivity.
  - exists ("/" ++ bucket ++ "/" ++ root)%string.
    rewrite !string_app_assoc. reflexivity.
Qed.



(** X2: with an API key of two characters or more [NewFs] asks the remote
    service for the user once.  If that fails, [NewFs] fails with the error
    wrapped, whatever the bucket; if it succeeds, [NewFs] returns an Fs that
    is logged in, also for the bucket "me". *)
Theorem NewFs_with_key `{api : Api} (name root : string) (o : Options)
  (w : World) :
  1 < String.length (APIKey o) →
  let prefix :=
    (if String.eqb root "" then "/" ++ BucketID o ++ "/"
     else ("/" ++ BucketID o ++ "/") ++ (root ++ "/"))%string in
  let f0 := {| name := name; root := root; opt := o; loggedIn := false;
               pathPrefix := prefix |} in
  (∀ (e : error) (s' : Server),
     api_userInfo f0 (server w) = (inl e, s') →
     NewFs name root (inr o) w
     = Some (inl (Errorf "failed to get user data" e),
             called (CallUserInfo f0) s' w))
  ∧ (∀ (user : UserInfo) (s' : Server),
       api_userInfo f0 (server w) = (inr user, s') →
       NewFs name root (inr o) w
       = Some (inr {| name := name; root := root; opt := o;
                      loggedIn := true; pathPrefix := prefix |},
               called (CallUserInfo f0) s' w)).
Proof.
  intros Hkey prefix f0. unfold NewFs.
  destruct (Nat.ltb_spec 1 (String.length (APIKey o))) as [_|]; [|lia].
  fold prefix. fold f0. unfold userInfo.
  split; intros x s' E; repeat step; reflexivity.
Qed.

Lemma NewFs_with_key_witness :
  @NewFs scripted "pd" "" (inr (opt_key "key" "abc123"))
    (empty_world (set_on_userInfo (inl (ErrOther "401")) script0))
  = Some (inl (Errorf "failed to get user data" (ErrOther "401")),
          @called scripted
            (CallUserInfo {| name := "pd"; root := "";
                             opt := opt_key "key" "abc123";
                             loggedIn := false; pathPrefix := "/abc123/" |})
            (set_on_userInfo (inl (ErrOther "401")) script0)
            (empty_world (set_on_userInfo (inl (ErrOther "401")) script0)))
  ∧ @NewFs scripted "pd" "" (inr (opt_key "key" "me")) (empty_world script0)
    = Some (inr fs0,
            @called scripted
              (CallUserInfo {| name := "pd"; root := "";
                               opt := opt_key "key" "me";
                               loggedIn := false; pathPrefix := "/me/" |})
              script0 (empty_world script0)).
Proof.
  split.
  - apply (proj1 (@NewFs_with_key scripted "pd" "" (opt_key "key" "abc123")
                    (empty_world
                       (set_on_userInfo (inl (ErrOther "401")) script0))
                    (le_S 2 2 (le_n 2)))).
    reflexivity.
  - apply (proj2 (@NewFs_with_key scripted "pd" "" (opt_key "key" "me")
                    (empty_world script0) (le_S 2 2 (le_n 2)))
             (user0 10 100)).
    reflexivity.
Defined.

(** X3: whenever [NewFs] returns an Fs, its name and root are the ones
    given, its path prefix begins and ends with a slash, it is logged in
    exactly when the API key has two characters or more, and an Fs on the
    bucket "me" is logged in. *)
Theorem NewFs_result `{api : Api} (name root : string)
  (parsed : error + Options) (w w' : World) (f : Fs) :
  NewFs name root parsed w = Some (inr f, w') →
  Name f = name ∧ Root f = root ∧ parsed = inr (opt f)
  ∧ (∃ rest, pathPrefix f = "/" ++ rest)%string
  ∧ (∃ pre, pathPrefix f = pre ++ "/")%string
  ∧ (loggedIn f = true ↔ 1 < String.length (APIKey (opt f)))
  ∧ (BucketID (opt f) = "me" → loggedIn f = true).
Proof.
  unfold NewFs. destruct parsed as [e|o]; [discriminate|].
  pose proof (NewFs_prefix_slashes (BucketID o) root) as Hp.
  cbv zeta in Hp.
  set (prefix := (if String.eqb root "" then _ else _)%string) in *.
  destruct (Nat.ltb_spec 1 (String.length (APIKey o))) as [Hk|Hk].
  - unfold bind, userInfo, call.
    destruct (api_userInfo _ (server w)) as [[e|u] s']; simpl;
      [discriminate|].
    intros H. injection H as <- _. simpl.
    repeat split; try tauto; try (intros; lia).
  - simpl. destruct (String.eqb_spec (BucketID o) "me") as [Hb|Hb]; simpl;
      [discriminate|].
    intros H. injection H as <- _. simpl.
    repeat split; try tauto; try (intros; lia || discriminate || congruence).
Qed.

Lemma NewFs_result_witness :
  Name fs0 = "pd" ∧ Root fs0 = ""
  ∧ (∃ rest, pathPrefix fs0 = "/" ++ rest)%string
  ∧ (∃ pre, pathPrefix fs0 = pre ++ "/")%string
  ∧ loggedIn fs0 = true.
Proof.
  destruct (@NewFs_result scripted "pd" "" (inr (opt_key "key" "me"))
              (empty_world script0)
              (@called scripted
                 (CallUserInfo {| name := "pd"; root := "";
                                  opt := opt_key "key" "me";
                                  loggedIn := false; pathPrefix := "/me/" |})
                 script0 (empty_world script0))
              fs0 eq_refl)
    as (H1 & H2 & _ & H3 & H4 & _ & H5).
  exact (conj H1 (conj H2 (conj H3 (conj H4 (H5 eq_refl))))).
Defined.

(** ** List *)

Lemma keeps_below_refl `{api : Api} (w : World) : keeps_below w w.
Proof. split; [lia|]. intros a _. split; reflexivity. Qed.

Lemma keeps_below_trans `{api : Api} (w1 w2 w3 : World) :
  keeps_below w1 w2 → keeps_below w2 w3 → keeps_below w1 w3.
Proof.
  intros [H1 F1] [H2 F2]. split; [lia|]. intros a Ha.
  destruct (F1 a Ha) as [E1 E2]. destruct (F2 a) as [E3 E4]; [lia|].
  split; congruence.
Qed.

(** The Object [nodeToObject] makes: a new node cell and a new Object cell
    at the allocation pointer. *)
Lemma nodeToObject_run `{api : Api} (f : Fs) (c : FilesystemNode)
  (w : World) :
  ∃ w',
    nodeToObject f c w = Some (S (next w), w')
    ∧ server w' = server w ∧ trace w' = trace w
    ∧ next w' = S (S (next w))
    ∧ nodes w' = <[next w := c]> (nodes w)
    ∧ objs w' = <[S (next w) := {| fs := f; base := next w;
                                   path := nil_slice;
                                   children := nil_slice |}]> (objs w).
Proof.
  eexists. split.
  { unfold nodeToObject, bind, new_slice, new_Object. simpl.
    rewrite Nat.add_1_r. reflexivity. }
  simpl. repeat split.
Qed.

Lemma nodeToObject_keeps_below `{api : Api} (f : Fs) (c : FilesystemNode)
  (w w' : World) (p : addr) :
  nodeToObject f c w = Some (p, w') → keeps_below w w'.
Proof.
  destruct (nodeToObject_run f c w) as (w1 & E & _ & _ & Hn & Hh & Ho).
  rewrite E. intros H. injection H as _ <-.
  split; [lia|]. intros a Ha. rewrite Hh, Ho.
  rewrite !lookup_insert_ne by lia. split; reflexivity.
Qed.

(** The loop of [List]: one entry per child, in the order of the children;
    the remote service is not called, and nothing that was allocated before
    is written. *)
Lemma list_entries_run `{api : Api} {Directory : Type}
  (ntd : Fs → FilesystemNode → Directory) (f : Fs)
  (cs : list FilesystemNode) (w : World) :
  ∃ es w',
    list_entries ntd f cs w = Some (es, w')
    ∧ server w' = server w ∧ trace w' = trace w
    ∧ keeps_below w w'
    ∧ Forall2 (λ c e, entry_for ntd f w' c e
                      ∧ ∀ p, e = EntryObject p →
                             next w ≤ p < next w'
                             ∧ ∀ o, objs w' !! p = Some o →
                                    next w ≤ base o < next w') cs es.
Proof.
  revert w. induction cs as [|c cs IH]; intros w.
  - exists [], w. simpl. repeat split; auto using keeps_below_refl.
  - simpl. unfold bind at 1.
    destruct (String.eqb (Type_ c) "dir") eqn:Ec.
    + unfold ret at 1. unfold bind at 1.
      destruct (IH w) as (es & w' & E & Hs & Ht & Hk & Hf).
      rewrite E. eexists _, _. split; [reflexivity|].
      repeat (split; [assumption|]).
      constructor; [|exact Hf]. split.
      * unfold entry_for. rewrite Ec. reflexivity.
      * intros p Hp. discriminate Hp.
    + unfold bind at 1.
      destruct (nodeToObject_run f c w)
        as (w1 & E1 & Hs1 & Ht1 & Hn1 & Hh1 & Ho1).
      rewrite E1. unfold ret at 1. unfold bind at 1.
      destruct (IH w1) as (es & w' & E & Hs & Ht & Hk & Hf).
      rewrite E. eexists _, _. split; [reflexivity|].
      split; [congruence|]. split; [congruence|].
      assert (keeps_below w w1) as Hk1
          by (eapply nodeToObject_keeps_below; exact E1).
      split; [eapply keeps_below_trans; eassumption|].
      destruct Hk as [Hle F].
      assert (objs w' !! S (next w)
              = Some {| fs := f; base := next w; path := nil_slice;
                        children := nil_slice |}) as Hobj.
      { assert (S (next w) < next w1) as Hlt by lia.
        destruct (F _ Hlt) as [_ E']. etransitivity; [exact E'|].
        rewrite Ho1. apply lookup_insert_eq. }
      constructor.
      * split.
        -- unfold entry_for. rewrite Ec.
           eexists _, _. split; [reflexivity|].
           split; [exact Hobj|]. split; [reflexivity|].
           split; [|split; reflexivity]. simpl.
           assert (next w < next w1) as Hlt by lia.
           destruct (F _ Hlt) as [E' _]. etransitivity; [exact E'|].
           rewrite Hh1. apply lookup_insert_eq.
        -- intros p Hp. injection Hp as <-. split; [lia|].
           intros o Ho. pose proof (eq_trans (eq_sym Ho) Hobj) as Heq.
           injection Heq as ->. simpl. lia.
      * eapply Forall2_impl; [exact Hf|]. simpl.
        intros c' e [He Hp]. split; [exact He|].
        intros p Hep. destruct (Hp p Hep) as [Hr Hb]. split; [lia|].
        intros o Ho. specialize (Hb o Ho). lia.
Qed.

(** X4: when the resolver resolves the directory, [List] returns one entry
    per child of the stat result, in the same order: the directory entry of
    the child when its type is "dir", and for every other type an Object
    whose node is the child.  The resolver is the only call made, and no
    Object or node that existed before is written. *)
Theorem List_entries `{api : Api} {Directory : Type}
  (ntd : Fs → FilesystemNode → Directory) (f : Fs) (dir : string)
  (w : World) (fsp : FilesystemPath) (s' : Server) :
  api_stat f dir (server w) = (inr fsp, s') →
  ∃ (es : list (DirEntry Directory)) (w' : World),
    List ntd f dir w = Some (inr es, w')
    ∧ Forall2 (entry_for ntd f w') (Children fsp) es
    ∧ length es = length (Children fsp)
    ∧ trace w' = trace w ++ [CallStat f dir]
    ∧ server w' = s'
    ∧ keeps_below w w'.
Proof.
  intros E.
  destruct (list_entries_run ntd f (Children fsp)
              (called (CallStat f dir) s' w))
    as (es & w' & El & Hs & Ht & Hk & Hf).
  exists es, w'. split.
  { unfold List, stat. repeat step. unfold bind at 1. rewrite El.
    reflexivity. }
  split; [eapply Forall2_impl; [exact Hf|]; simpl; tauto|].
  split; [symmetry; eapply Forall2_length; exact Hf|].
  split; [exact Ht|]. split; [exact Hs|]. exact Hk.
Qed.

Lemma List_entries_witness :
  ∃ (es : list (DirEntry Directory0)) (w' : World),
    @List scripted Directory0 nodeToDirectory0 fs0 "docs"
      (empty_world
         (set_on_stat (inr {| fspPath := [dir0]; BaseIndex := 0;
                              Children := [dir0; file0] |}) script0))
    = Some (inr es, w')
    ∧ Forall2 (entry_for nodeToDirectory0 fs0 w') [dir0; file0] es
    ∧ length es = 2.
Proof.
  destruct (@List_entries scripted Directory0 nodeToDirectory0 fs0 "docs"
              (empty_world
                 (set_on_stat (inr {| fspPath := [dir0]; BaseIndex := 0;
                                      Children := [dir0; file0] |}) script0))
              {| fspPath := [dir0]; BaseIndex := 0;
                 Children := [dir0; file0] |}
              (set_on_stat (inr {| fspPath := [dir0]; BaseIndex := 0;
                                   Children := [dir0; file0] |}) script0)
              eq_refl)
    as (es & w' & H1 & H2 & H3 & _).
  exists es, w'. exact (conj H1 (conj H2 H3)).
Defined.

(** X5: when the resolver fails, [List] returns no entries and allocates
    nothing: "not found" becomes DirNotFound, and every other error is
    returned as it is. *)
Theorem List_errors `{api : Api} {Directory : Type}
  (ntd : Fs → FilesystemNode → Directory) (f : Fs) (dir : string)
  (w : World) (e : error) (s' : Server) :
  api_stat f dir (server w) = (inl e, s') →
  List ntd f dir w
  = Some (inl (match e with errNotFound => ErrorDirNotFound | _ => e end),
          called (CallStat f dir) s' w).
Proof.
  intros E. unfold List, stat. repeat step. destruct e; reflexivity.
Qed.

Lemma List_errors_witness :
  @List scripted Directory0 nodeToDirectory0 fs0 "nope"
    (empty_world (set_on_stat (inl errNotFound) script0))
  = Some (inl ErrorDirNotFound,
          @called scripted (CallStat fs0 "nope")
            (set_on_stat (inl errNotFound) script0)
            (empty_world (set_on_stat (inl errNotFound) script0)))
  ∧ @List scripted Directory0 nodeToDirectory0 fs0 "docs"
      (empty_world (set_on_stat (inl (ErrOther "500")) script0))
    = Some (inl (ErrOther "500"),
            @called scripted (CallStat fs0 "docs")
              (set_on_stat (inl (ErrOther "500")) script0)
              (empty_world (set_on_stat (inl (ErrOther "500")) script0))).
Proof.
  split.
  - exact (@List_errors scripted Directory0 nodeToDirectory0 fs0 "nope"
             (empty_world (set_on_stat (inl errNotFound) script0))
             errNotFound (set_on_stat (inl errNotFound) script0) eq_refl).
  - exact (@List_errors scripted Directory0 nodeToDirectory0 fs0 "docs"
             (empty_world (set_on_stat (inl (ErrOther "500")) script0))
             (ErrOther "500") (set_on_stat (inl (ErrOther "500")) script0)
             eq_refl).
Defined.

(** X6: [NewObject] reads the path trace at [BaseIndex] without a bounds
    check.  On a stat result whose [BaseIndex] is not an index of the path
    trace [NewObject] panics, while [List], which reads only the children,
    returns the entries of the same stat result. *)
Theorem NewObject_index_out_of_range `{api : Api} {Directory : Type}
  (ntd : Fs → FilesystemNode → Directory) (f : Fs) (remote : string)
  (w : World) (fsp : FilesystemPath) (s' : Server) :
  api_stat f remote (server w) = (inr fsp, s') →
  (BaseIndex fsp < 0 ∨ Z.of_nat (length (fspPath fsp)) ≤ BaseIndex fsp)%Z →
  NewObject f remote w = None
  ∧ ∃ es w', List ntd f remote w = Some (inr es, w')
             ∧ length es = length (Children fsp).
Proof.
  intros E Hi. split.
  - unfold NewObject, stat. repeat step.
    assert (index (fspPath fsp) (BaseIndex fsp) = None) as ->;
      [|reflexivity].
    unfold index. destruct (Z.ltb_spec (BaseIndex fsp) 0); [reflexivity|].
    apply lookup_ge_None. lia.
  - destruct (list_entries_run ntd f (Children fsp)
                (called (CallStat f remote) s' w))
      as (es & w' & El & _ & _ & _ & Hf).
    exists es, w'. split.
    + unfold List, stat. repeat step. unfold bind at 1. rewrite El.
      reflexivity.
    + symmetry. eapply Forall2_length. exact Hf.
Qed.

Lemma NewObject_index_out_of_range_witness :
  @NewObject scripted fs0 "a.txt"
    (empty_world
       (set_on_stat (inr {| fspPath := [file0]; BaseIndex := 1;
                            Children := [] |}) script0))
  = None
  ∧ ∃ es w',
      @List scripted Directory0 nodeToDirectory0 fs0 "a.txt"
        (empty_world
           (set_on_stat (inr {| fspPath := [file0]; BaseIndex := 1;
                                Children := [] |}) script0))
      = Some (inr es, w')
      ∧ length es = 0.
Proof.
  apply (@NewObject_index_out_of_range scripted Directory0 nodeToDirectory0
           fs0 "a.txt"
           (empty_world
              (set_on_stat (inr {| fspPath := [file0]; BaseIndex := 1;
                                   Children := [] |}) script0))
           {| fspPath := [file0]; BaseIndex := 1; Children := [] |}
           (set_on_stat (inr {| fspPath := [file0]; BaseIndex := 1;
                                Children := [] |}) script0)
           eq_refl).
  right. simpl. lia.
Defined.

(** ** Reading an Object *)

(** What the getters of an Object return: the fields of the node that
    [base] points to. *)
Lemma getters_run `{api : Api} (p : addr) (o : Object) (n : FilesystemNode)
  (w : World) :
  objs w !! p = Some o → nodes w !! base o = Some n →
  Remote (PdObject p) w = Some (Path n, w)
  ∧ Size p w = Some (FileSize n, w)
  ∧ ModTime p w = Some (Modified n, w)
  ∧ MimeType p w = Some (FileType n, w).
Proof.
  intros Eo En. unfold Remote, Size, ModTime, MimeType.
  repeat split; repeat step; reflexivity.
Qed.

Lemma Hash_run `{api : Api} (SHA256 : Z) (p : addr) (o : Object)
  (n : FilesystemNode) (w : World) :
  objs w !! p = Some o → nodes w !! base o = Some n →
  Hash SHA256 p SHA256 w = Some ((SHA256Sum n, None), w).
Proof.
  intros Eo En. unfold Hash. rewrite Z.eqb_refl. simpl.
  repeat step. reflexivity.
Qed.

(** X7: an error of the resolver other than "not found" is returned by
    [NewObject] as it is, and no Object is allocated. *)
Theorem NewObject_passes_other_errors `{api : Api} (f : Fs)
  (remote : string) (w : World) (e : error) (s' : Server) :
  api_stat f remote (server w) = (inl e, s') → e ≠ errNotFound →
  NewObject f remote w = Some (inl e, called (CallStat f remote) s' w).
Proof.
  intros E He. unfold NewObject, stat.
  erewrite bind_run by (eapply call_run; exact E).
  destruct e; first [contradiction | reflexivity].
Qed.

Lemma NewObject_passes_other_errors_witness :
  @NewObject scripted fs0 "a.txt"
    (empty_world (set_on_stat (inl (ErrOther "500")) script0))
  = Some (inl (ErrOther "500"),
          @called scripted (CallStat fs0 "a.txt")
            (set_on_stat (inl (ErrOther "500")) script0)
            (empty_world (set_on_stat (inl (ErrOther "500")) script0))).
Proof.
  apply (@NewObject_passes_other_errors scripted fs0 "a.txt"
           (empty_world (set_on_stat (inl (ErrOther "500")) script0))
           (ErrOther "500") (set_on_stat (inl (ErrOther "500")) script0)
           eq_refl).
  discriminate.
Defined.

(** The Object a successful [NewObject] allocates. *)
Lemma NewObject_alloc `{api : Api} (f : Fs) (remote : string) (w : World)
  (fsp : FilesystemPath) (n : FilesystemNode) (s' : Server) :
  api_stat f remote (server w) = (inr fsp, s') →
  index (fspPath fsp) (BaseIndex fsp) = Some n →
  Type_ n ≠ "dir" →
  ∃ (p : addr) (o : Object) (w' : World),
    NewObject f remote w = Some (inr (PdObject p), w')
    ∧ objs w' !! p = Some o ∧ nodes w' !! base o = Some n ∧ fs o = f.
Proof.
  intros E Hn Hdir. apply String.eqb_neq in Hdir.
  destruct (index_Some _ _ _ Hn) as [Hi _].
  pose proof (lookup_lt_Some _ _ _ Hi) as Hlt.
  eexists _, _, _. split.
  { unfold NewObject, stat. repeat step. rewrite Hn, Hdir.
    unfold pathToObject. rewrite Hn. reflexivity. }
  simpl. split; [apply lookup_insert_eq|]. split; [|reflexivity]. simpl.
  rewrite store_array_lookup_lt by lia. apply store_array_lookup, Hi.
Qed.

(** X8: the Object [NewObject] returns for a resolved file answers
    [Remote], [Size], [ModTime] and [MimeType] with the path, size,
    modification time and mime type of the target node of the stat result,
    and [Hash] for SHA-256 with its SHA-256 sum; none of them calls the
    remote service. *)
Theorem NewObject_then_getters `{api : Api} (SHA256 : Z) (f : Fs)
  (remote : string) (w : World) (fsp : FilesystemPath) (n : FilesystemNode)
  (s' : Server) :
  api_stat f remote (server w) = (inr fsp, s') →
  index (fspPath fsp) (BaseIndex fsp) = Some n →
  Type_ n ≠ "dir" →
  ∃ (p : addr) (w' : World),
    NewObject f remote w = Some (inr (PdObject p), w')
    ∧ Remote (PdObject p) w' = Some (Path n, w')
    ∧ Size p w' = Some (FileSize n, w')
    ∧ ModTime p w' = Some (Modified n, w')
    ∧ MimeType p w' = Some (FileType n, w')
    ∧ Hash SHA256 p SHA256 w' = Some ((SHA256Sum n, None), w').
Proof.
  intros E Hn Hdir.
  destruct (NewObject_alloc f remote w fsp n s' E Hn Hdir)
    as (p & o & w' & H & Ho & Hb & _).
  exists p, w'. split; [exact H|].
  destruct (getters_run p o n w' Ho Hb) as (H1 & H2 & H3 & H4).
  repeat (split; [assumption|]). eapply Hash_run; eassumption.
Qed.

Lemma NewObject_then_getters_witness :
  ∃ (p : addr) (w' : World),
    @NewObject scripted fs0 "docs/a.txt" (empty_world script0)
    = Some (inr (PdObject p), w')
    ∧ Remote (PdObject p) w' = Some ("a.txt", w')
    ∧ Size p w' = Some (5%Z, w')
    ∧ ModTime p w' = Some (1700000000000%Z, w')
    ∧ MimeType p w' = Some ("text/plain", w')
    ∧ Hash SHA256_0 p SHA256_0 w' = Some (("2cf24dba", None), w').
Proof.
  apply (@NewObject_then_getters scripted SHA256_0 fs0 "docs/a.txt"
           (empty_world script0)
           {| fspPath := [dir0; file0]; BaseIndex := 1; Children := [] |}
           file0 script0 eq_refl eq_refl).
  discriminate.
Defined.

(** X9: the Object a successful [Put] returns answers its getters from the
    node in the answer of the metadata update: its path, size, modification
    time and mime type are those the remote service reported, which need not
    be the path and time of the source. *)
Theorem Put_then_getters `{api : Api} (f : Fs) (body : string)
  (src : ObjectInfo) (options : list OpenOption) (w : World)
  (up node : FilesystemNode) (s1 s2 : Server) :
  api_put f (srcRemote src) body options (server w) = (inr up, s1) →
  api_update f (srcRemote src) {[ "modified" := anyTime (srcModTime src) ]}
    s1 = (inr node, s2) →
  ∃ (p : addr) (w' : World),
    Put f body src options w = Some (inr (PdObject p), w')
    ∧ Remote (PdObject p) w' = Some (Path node, w')
    ∧ Size p w' = Some (FileSize node, w')
    ∧ ModTime p w' = Some (Modified node, w')
    ∧ MimeType p w' = Some (FileType node, w').
Proof.
  intros E1 E2. eexists _, _. split.
  { unfold Put, put, update. repeat step. reflexivity. }
  eapply getters_run; simpl.
  - apply lookup_insert_eq.
  - simpl. apply lookup_insert_eq.
Qed.

Lemma Put_then_getters_witness :
  ∃ (p : addr) (w' : World),
    @Put scripted fs0 "hello"
      {| srcRemote := "b.txt"; srcModTime := 7; srcSize := 5 |} []
      (empty_world script0)
    = Some (inr (PdObject p), w')
    ∧ Remote (PdObject p) w' = Some ("a.txt", w')
    ∧ Size p w' = Some (5%Z, w')
    ∧ ModTime p w' = Some (1800000000000%Z, w')
    ∧ MimeType p w' = Some ("text/plain", w').
Proof.
  exact (@Put_then_getters scripted fs0 "hello"
           {| srcRemote := "b.txt"; srcModTime := 7; srcSize := 5 |} []
           (empty_world script0) file0 (set_Modified 1800000000000 file0)
           script0 script0 eq_refl eq_refl).
Defined.

(** ** More on Move, Remove and SetModTime *)

(** X10: when the rename fails, [Move] returns an error and no Object:
    CantMove for "not found", and for every other error the error wrapped
    as a failed rename.  The stores are as before, so the Object of the
    caller keeps its old path. *)
Theorem Move_failure `{api : Api} (f : Fs) (p : addr) (o : Object)
  (n : FilesystemNode) (remote : string) (w : World) (e : error)
  (s' : Server) :
  objs w !! p = Some o → nodes w !! base o = Some n →
  api_rename f (Path n) remote (server w) = (Some e, s') →
  let w1 := called (CallRename f (Path n) remote) s' w in
  Move f (PdObject p) remote w
  = Some (inl (match e with
               | errNotFound => ErrorCantMove
               | _ => Errorf "failed to rename file" e
               end), w1)
  ∧ nodes w1 = nodes w ∧ objs w1 = objs w
  ∧ Remote (PdObject p) w1 = Some (Path n, w1).
Proof.
  intros Eo En Er w1. split; [|split; [reflexivity|split; [reflexivity|]]].
  - unfold Move, rename. repeat step. destruct e; reflexivity.
  - eapply Remote_run; eassumption.
Qed.

Lemma Move_failure_witness :
  @Move scripted fs0 (PdObject 3) "b.txt"
    (world1 (set_on_rename (Some (ErrOther "500")) script0))
  = Some (inl (Errorf "failed to rename file" (ErrOther "500")),
          @called scripted (CallRename fs0 "a.txt" "b.txt")
            (set_on_rename (Some (ErrOther "500")) script0)
            (world1 (set_on_rename (Some (ErrOther "500")) script0))).
Proof.
  exact (proj1 (@Move_failure scripted fs0 3
                  {| fs := fs0; base := 2;
                     path := {| sptr := 1; slen := 2 |};
                     children := {| sptr := 3; slen := 0 |} |}
                  file0 "b.txt"
                  (world1 (set_on_rename (Some (ErrOther "500")) script0))
                  (ErrOther "500")
                  (set_on_rename (Some (ErrOther "500")) script0)
                  eq_refl eq_refl eq_refl)).
Defined.

(** X11: [Move] does not change the Fs of the Object it moves.  After a
    successful [Move] by the Fs [f], [Remove] on the returned Object deletes
    the new path, without recursion, through the Fs the Object had before
    the move, and returns the answer of the remote service as it is. *)
Theorem Move_then_Remove `{api : Api} (f : Fs) (p : addr) (o : Object)
  (n : FilesystemNode) (remote : string) (w : World) (s1 s2 : Server)
  (r : option error) :
  objs w !! p = Some o → nodes w !! base o = Some n →
  api_rename f (Path n) remote (server w) = (None, s1) →
  api_delete (fs o) remote false s1 = (r, s2) →
  ∃ w1 w2,
    Move f (PdObject p) remote w = Some (inr (PdObject p), w1)
    ∧ objs w1 !! p = Some o
    ∧ Remove p w1 = Some (r, w2)
    ∧ trace w2 = trace w ++ [CallRename f (Path n) remote;
                             CallDelete (fs o) remote false]
    ∧ nodes w2 = nodes w1 ∧ objs w2 = objs w1.
Proof.
  intros Eo En Er Ed.
  exists (with_nodes (<[base o := set_Path remote n]> (nodes w)) (next w)
            (called (CallRename f (Path n) remote) s1 w)).
  eexists. split.
  { unfold Move, rename. repeat step. reflexivity. }
  split; [exact Eo|].
  assert (nodes (with_nodes (<[base o := set_Path remote n]> (nodes w))
                   (next w) (called (CallRename f (Path n) remote) s1 w))
          !! base o = Some (set_Path remote n)) as En'
      by apply lookup_insert_eq.
  split.
  { unfold Remove.
    erewrite bind_run by (eapply deref_base_run; [exact Eo|exact En']).
    erewrite bind_run by (eapply object_fs_run; exact Eo).
    erewrite bind_run by (eapply deref_base_run; [exact Eo|exact En']).
    unfold delete_. eapply call_run. exact Ed. }
  simpl. rewrite <- app_assoc. repeat split.
Qed.

Lemma Move_then_Remove_witness :
  ∃ w1 w2,
    @Move scripted fs0 (PdObject 3) "b.txt" (world1 script0)
    = Some (inr (PdObject 3), w1)
    ∧ @Remove scripted 3 w1 = Some (None, w2)
    ∧ trace w2 = [CallRename fs0 "a.txt" "b.txt";
                  CallDelete fs0 "b.txt" false].
Proof.
  destruct (@Move_then_Remove scripted fs0 3
              {| fs := fs0; base := 2;
                 path := {| sptr := 1; slen := 2 |};
                 children := {| sptr := 3; slen := 0 |} |}
              file0 "b.txt" (world1 script0) script0 script0 None
              eq_refl eq_refl eq_refl eq_refl)
    as (w1 & w2 & H1 & _ & H2 & H3 & _).
  exists w1, w2. exact (conj H1 (conj H2 H3)).
Defined.

(** X12: after a successful [SetModTime], [ModTime] returns the time that
    was asked for, whatever node the remote service answered with, and
    [Remote], [Size] and [MimeType] are as before; after a failed
    [SetModTime], [ModTime] returns the old time. *)
Theorem SetModTime_then_ModTime `{api : Api} (p : addr) (o : Object)
  (n : FilesystemNode) (t : Z) (w : World) (s' : Server)
  (r : error + FilesystemNode) :
  objs w !! p = Some o → nodes w !! base o = Some n →
  api_update (fs o) (Path n) {[ "modified" := anyTime t ]} (server w)
  = (r, s') →
  ∃ w',
    SetModTime p t w
    = Some (match r with inl e => Some e | inr _ => None end, w')
    ∧ ModTime p w'
      = Some (match r with inl _ => Modified n | inr _ => t end, w')
    ∧ Remote (PdObject p) w' = Some (Path n, w')
    ∧ Size p w' = Some (FileSize n, w')
    ∧ MimeType p w' = Some (FileType n, w').
Proof.
  intros Eo En Eu. destruct r as [e|u].
  - eexists. split.
    { unfold SetModTime, update. repeat step. reflexivity. }
    destruct (getters_run p o n
                (called (CallUpdate (fs o) (Path n)
                           {[ "modified" := anyTime t ]}) s' w) Eo En)
      as (H1 & H2 & H3 & H4).
    auto.
  - set (w' := with_nodes (<[base o := set_Modified t n]> (nodes w))
                  (next w)
                  (called (CallUpdate (fs o) (Path n)
                             {[ "modified" := anyTime t ]}) s' w)).
    exists w'. split.
    { unfold SetModTime, update. repeat step. reflexivity. }
    destruct (getters_run p o (set_Modified t n) w' Eo)
      as (H1 & H2 & H3 & H4); [apply lookup_insert_eq|].
    auto.
Qed.

Lemma SetModTime_then_ModTime_witness :
  ∃ w',
    @SetModTime scripted 3 42 (world1 script0) = Some (None, w')
    ∧ ModTime 3 w' = Some (42%Z, w')
    ∧ Remote (PdObject 3) w' = Some ("a.txt", w')
    ∧ Size 3 w' = Some (5%Z, w')
    ∧ MimeType 3 w' = Some ("text/plain", w').
Proof.
  exact (@SetModTime_then_ModTime scripted 3
           {| fs := fs0; base := 2;
              path := {| sptr := 1; slen := 2 |};
              children := {| sptr := 3; slen := 0 |} |}
           file0 42 (world1 script0) script0
           (inr (set_Modified 1800000000000 file0))
           eq_refl eq_refl eq_refl).
Defined.

(** ** Update *)

(** The world after a successful [Put]. *)
Lemma Put_run_ok `{api : Api} (f : Fs) (body : string) (src : ObjectInfo)
  (options : list OpenOption) (w : World) (up node : FilesystemNode)
  (s1 s2 : Server) :
  api_put f (srcRemote src) body options (server w) = (inr up, s1) →
  api_update f (srcRemote src) {[ "modified" := anyTime (srcModTime src) ]}
    s1 = (inr node, s2) →
  ∃ w',
    Put f body src options w = Some (inr (PdObject (S (next w))), w')
    ∧ server w' = s2
    ∧ trace w'
      = trace w ++ [CallPut f (srcRemote src) body options;
                    CallUpdate f (srcRemote src)
                      {[ "modified" := anyTime (srcModTime src) ]}]
    ∧ next w' = S (S (next w))
    ∧ nodes w' = <[next w := node]> (nodes w)
    ∧ objs w' = <[S (next w) := {| fs := f; base := next w;
                                   path := nil_slice;
                                   children := nil_slice |}]> (objs w).
Proof.
  intros E1 E2. eexists. split.
  { unfold Put, put, update. repeat step.
    unfold nodeToObject, bind, new_slice, new_Object, ret. simpl.
    rewrite Nat.add_1_r. reflexivity. }
  simpl. rewrite <- app_assoc. repeat split.
Qed.

Lemma Put_run_upload_fails `{api : Api} (f : Fs) (body : string)
  (src : ObjectInfo) (options : list OpenOption) (w : World) (e : error)
  (s1 : Server) :
  api_put f (srcRemote src) body options (server w) = (inl e, s1) →
  Put f body src options w
  = Some (inl (Errorf "failed to put object" e),
          called (CallPut f (srcRemote src) body options) s1 w).
Proof. intros E1. unfold Put, put. repeat step. reflexivity. Qed.

Lemma Put_run_update_fails `{api : Api} (f : Fs) (body : string)
  (src : ObjectInfo) (options : list OpenOption) (w : World)
  (up : FilesystemNode) (e : error) (s1 s2 : Server) :
  api_put f (srcRemote src) body options (server w) = (inr up, s1) →
  api_update f (srcRemote src) {[ "modified" := anyTime (srcModTime src) ]}
    s1 = (inl e, s2) →
  Put f body src options w
  = Some (inl e,
          called (CallUpdate f (srcRemote src)
                    {[ "modified" := anyTime (srcModTime src) ]}) s2
            (called (CallPut f (srcRemote src) body options) s1 w)).
Proof. intros E1 E2. unfold Put, put, update. repeat step. reflexivity. Qed.

Lemma assign_Object_run `{api : Api} (o p : addr) (old v : Object)
  (w : World) :
  objs w !! o = Some old → objs w !! p = Some v →
  assign_Object o p w
  = Some (tt, with_objs (<[o := v]> (objs w)) (next w) w).
Proof. intros E1 E2. unfold assign_Object. rewrite E1, E2. reflexivity. Qed.

(** X13: a successful [Update] uploads to the path of the source, not to
    the path the Object had, and replaces the Object of the caller by the
    one [Put] made: afterwards the Object belongs to the same Fs, its node
    is the one the metadata update answered with, and it has no path trace
    and no children. *)
Theorem Update_success `{api : Api} (o : addr) (ob : Object) (body : string)
  (src : ObjectInfo) (options : list OpenOption) (w : World)
  (up node : FilesystemNode) (s1 s2 : Server) :
  objs w !! o = Some ob →
  api_put (fs ob) (srcRemote src) body options (server w) = (inr up, s1) →
  api_update (fs ob) (srcRemote src)
    {[ "modified" := anyTime (srcModTime src) ]} s1 = (inr node, s2) →
  ∃ (w' : World) (ob' : Object),
    Update o body src options w = Some (None, w')
    ∧ trace w'
      = trace w ++ [CallPut (fs ob) (srcRemote src) body options;
                    CallUpdate (fs ob) (srcRemote src)
                      {[ "modified" := anyTime (srcModTime src) ]}]
    ∧ objs w' !! o = Some ob'
    ∧ fs ob' = fs ob
    ∧ path ob' = nil_slice ∧ children ob' = nil_slice
    ∧ nodes w' !! base ob' = Some node
    ∧ Remote (PdObject o) w' = Some (Path node, w')
    ∧ ModTime o w' = Some (Modified node, w')
    ∧ Size o w' = Some (FileSize node, w').
Proof.
  intros Eo E1 E2.
  destruct (Put_run_ok (fs ob) body src options w up node s1 s2 E1 E2)
    as (wp & Ep & Hs & Ht & Hn & Hh & Hob).
  set (new := {| fs := fs ob; base := next w; path := nil_slice;
                 children := nil_slice |}) in *.
  assert (objs wp !! S (next w) = Some new) as Hnew
      by (rewrite Hob; apply lookup_insert_eq).
  assert (is_Some (objs wp !! o)) as [old Hold].
  { rewrite Hob. destruct (decide (S (next w) = o)) as [<-|Hne].
    - rewrite lookup_insert_eq. eauto.
    - rewrite lookup_insert_ne by exact Hne. eauto. }
  exists (with_objs (<[o := new]> (objs wp)) (next wp) wp), new.
  assert (nodes wp !! next w = Some node) as Hnode
      by (rewrite Hh; apply lookup_insert_eq).
  split.
  { unfold Update.
    erewrite bind_run by (eapply object_fs_run; exact Eo).
    erewrite bind_run by exact Ep. cbv beta iota.
    erewrite bind_run by (eapply assign_Object_run; [exact Hold|exact Hnew]).
    reflexivity. }
  split; [exact Ht|].
  assert (objs (with_objs (<[o := new]> (objs wp)) (next wp) wp) !! o
          = Some new) as Ho' by apply lookup_insert_eq.
  split; [exact Ho'|].
  repeat (split; [reflexivity|]).
  split; [exact Hnode|].
  destruct (getters_run o new node _ Ho' Hnode) as (H1 & H2 & H3 & _).
  auto.
Qed.

Lemma Update_success_witness :
  ∃ (w' : World) (ob' : Object),
    @Update scripted 3 "hello"
      {| srcRemote := "b.txt"; srcModTime := 7; srcSize := 5 |} []
      (world1 script0)
    = Some (None, w')
    ∧ trace w'
      = [CallPut fs0 "b.txt" "hello" [];
         CallUpdate fs0 "b.txt" {[ "modified" := anyTime 7 ]}]
    ∧ objs w' !! 3 = Some ob'
    ∧ path ob' = nil_slice
    ∧ ModTime 3 w' = Some (1800000000000%Z, w').
Proof.
  destruct (@Update_success scripted 3
              {| fs := fs0; base := 2;
                 path := {| sptr := 1; slen := 2 |};
                 children := {| sptr := 3; slen := 0 |} |}
              "hello"
              {| srcRemote := "b.txt"; srcModTime := 7; srcSize := 5 |} []
              (world1 script0) file0 (set_Modified 1800000000000 file0)
              script0 script0 eq_refl eq_refl eq_refl)
    as (w' & ob' & H1 & H2 & H3 & _ & H4 & _ & _ & _ & H5 & _).
  exists w', ob'. exact (conj H1 (conj H2 (conj H3 (conj H4 H5)))).
Defined.

(** X14: a failed [Update] returns the error of [Put] and leaves the stores
    of nodes and Objects as they were.  This also holds when the upload was
    made and only the metadata update failed: the remote content has been
    replaced, and the Object of the caller still shows the old node. *)
Theorem Update_failure `{api : Api} (o : addr) (ob : Object) (body : string)
  (src : ObjectInfo) (options : list OpenOption) (w : World) :
  objs w !! o = Some ob →
  let c1 := CallPut (fs ob) (srcRemote src) body options in
  let fields : gmap string any :=
    {[ "modified" := anyTime (srcModTime src) ]} in
  let c2 := CallUpdate (fs ob) (srcRemote src) fields in
  (∀ (e : error) (s1 : Server),
     api_put (fs ob) (srcRemote src) body options (server w) = (inl e, s1) →
     ∃ w',
       Update o body src options w
       = Some (Some (Errorf "failed to put object" e), w')
       ∧ trace w' = trace w ++ [c1]
       ∧ nodes w' = nodes w ∧ objs w' = objs w)
  ∧ (∀ (up : FilesystemNode) (s1 : Server) (e : error) (s2 : Server),
       api_put (fs ob) (srcRemote src) body options (server w)
       = (inr up, s1) →
       api_update (fs ob) (srcRemote src) fields s1 = (inl e, s2) →
       ∃ w',
         Update o body src options w = Some (Some e, w')
         ∧ trace w' = trace w ++ [c1; c2]
         ∧ nodes w' = nodes w ∧ objs w' = objs w).
Proof.
  intros Eo c1 fields c2. split.
  - intros e s1 E1. eexists. split.
    { unfold Update.
      erewrite bind_run by (eapply object_fs_run; exact Eo).
      erewrite bind_run by (eapply Put_run_upload_fails; exact E1).
      reflexivity. }
    repeat split.
  - intros up s1 e s2 E1 E2. eexists. split.
    { unfold Update.
      erewrite bind_run by (eapply object_fs_run; exact Eo).
      erewrite bind_run by (eapply Put_run_update_fails; eassumption).
      reflexivity. }
    simpl. rewrite <- app_assoc. repeat split.
Qed.

Lemma Update_failure_witness :
  (∃ w',
     @Update scripted 3 "hello"
       {| srcRemote := "a.txt"; srcModTime := 7; srcSize := 5 |} []
       (world1 (set_on_put (inl (ErrOther "quota")) script0))
     = Some (Some (Errorf "failed to put object" (ErrOther "quota")), w')
     ∧ objs w' = objs (world1 script0))
  ∧ (∃ w',
       @Update scripted 3 "hello"
         {| srcRemote := "a.txt"; srcModTime := 7; srcSize := 5 |} []
         (world1 (set_on_update (inl errNotFound) script0))
       = Some (Some errNotFound, w')
       ∧ nodes w' = nodes (world1 script0)).
Proof.
  split.
  - destruct (proj1 (@Update_failure scripted 3
                       {| fs := fs0; base := 2;
                          path := {| sptr := 1; slen := 2 |};
                          children := {| sptr := 3; slen := 0 |} |}
                       "hello"
                       {| srcRemote := "a.txt"; srcModTime := 7;
                          srcSize := 5 |} []
                       (world1 (set_on_put (inl (ErrOther "quota")) script0))
                       eq_refl)
                (ErrOther "quota")
                (set_on_put (inl (ErrOther "quota")) script0) eq_refl)
      as (w' & H1 & _ & _ & H2).
    exists w'. exact (conj H1 H2).
  - destruct (proj2 (@Update_failure scripted 3
                       {| fs := fs0; base := 2;
                          path := {| sptr := 1; slen := 2 |};
                          children := {| sptr := 3; slen := 0 |} |}
                       "hello"
                       {| srcRemote := "a.txt"; srcModTime := 7;
                          srcSize := 5 |} []
                       (world1 (set_on_update (inl errNotFound) script0))
                       eq_refl)
                file0 (set_on_update (inl errNotFound) script0)
                errNotFound (set_on_update (inl errNotFound) script0)
                eq_refl eq_refl)
      as (w' & H1 & _ & H2 & _).
    exists w'. exact (conj H1 H2).
Defined.

(** ** Rmdir, Purge, Remove and DirMove *)

Lemma deleted_None (r : option error) : deleted r = None ↔ r = None.
Proof.
  split; [|intros ->; reflexivity].
  destruct r as [e|]; [|reflexivity]. destruct e; discriminate.
Qed.

(** X15: [Rmdir] and [Purge] make one delete call each, [Rmdir] without
    and [Purge] with recursion, and return no error exactly when the remote
    delete returns none.  "Not found" becomes DirNotFound; every other
    error, "already exists" among them, is returned as it is. *)
Theorem Rmdir_Purge_errors `{api : Api} (f : Fs) (dir : string)
  (recursive : bool) (w : World) (r : option error) (s' : Server) :
  api_delete f dir recursive (server w) = (r, s') →
  ∃ res : option error,
    (if recursive then Purge f dir w else Rmdir f dir w)
    = Some (res, called (CallDelete f dir recursive) s' w)
    ∧ (res = None ↔ r = None)
    ∧ (r = Some errNotFound → res = Some ErrorDirNotFound)
    ∧ (∀ e, r = Some e → e ≠ errNotFound → res = Some e).
Proof.
  intros E. exists (deleted r). split.
  - destruct recursive; unfold Purge, Rmdir, delete_; repeat step;
      destruct r as [[]|]; reflexivity.
  - split; [apply deleted_None|]. split.
    + intros ->. reflexivity.
    + intros e -> He. destruct e; first [contradiction|reflexivity].
Qed.

Lemma Rmdir_Purge_errors_witness :
  (∃ res,
     @Rmdir scripted fs0 "docs" (empty_world script0)
     = Some (res,
             @called scripted (CallDelete fs0 "docs" false) script0
               (empty_world script0))
     ∧ res = None)
  ∧ (∃ res,
       @Purge scripted fs0 "docs" (empty_world script0)
       = Some (res,
               @called scripted (CallDelete fs0 "docs" true) script0
                 (empty_world script0))
       ∧ res = None).
Proof.
  split.
  - destruct (@Rmdir_Purge_errors scripted fs0 "docs" false
                (empty_world script0) None script0 eq_refl)
      as (res & H1 & H2 & _).
    exists res. exact (conj H1 (proj2 H2 eq_refl)).
  - destruct (@Rmdir_Purge_errors scripted fs0 "docs" true
                (empty_world script0) None script0 eq_refl)
      as (res & H1 & H2 & _).
    exists res. exact (conj H1 (proj2 H2 eq_refl)).
Defined.

(** X16: [Remove] on an Object makes the delete call that [Rmdir] makes on
    the path of the Object, a delete without recursion, and leaves the
    Object in the stores; but it returns the answer of the remote service
    untranslated, so a missing file gives the "not found" error of the API
    client where [Rmdir] gives DirNotFound. *)
Theorem Remove_answer `{api : Api} (p : addr) (o : Object)
  (n : FilesystemNode) (w : World) (r : option error) (s' : Server) :
  objs w !! p = Some o → nodes w !! base o = Some n →
  api_delete (fs o) (Path n) false (server w) = (r, s') →
  let w1 := called (CallDelete (fs o) (Path n) false) s' w in
  Remove p w = Some (r, w1)
  ∧ Rmdir (fs o) (Path n) w = Some (deleted r, w1)
  ∧ objs w1 !! p = Some o ∧ nodes w1 !! base o = Some n.
Proof.
  intros Eo En Ed w1. split; [|split; [|split; assumption]].
  - unfold Remove, delete_. repeat step. eapply call_run. exact Ed.
  - unfold Rmdir, delete_. repeat step. destruct r as [[]|]; reflexivity.
Qed.

Lemma Remove_answer_witness :
  @Remove scripted 3 (world1 script0)
  = Some (None,
          @called scripted (CallDelete fs0 "a.txt" false) script0
            (world1 script0)).
Proof.
  exact (proj1 (@Remove_answer scripted 3
                  {| fs := fs0; base := 2;
                     path := {| sptr := 1; slen := 2 |};
                     children := {| sptr := 3; slen := 0 |} |}
                  file0 (world1 script0) None script0
                  eq_refl eq_refl eq_refl)).
Defined.

(** X17: [DirMove] makes one rename call and returns no error exactly when
    the rename returns none; it does not look at the source Fs.  "Not
    found" becomes DirNotFound, "already exists" becomes DirExists, and
    every other error is returned as it is. *)
Theorem DirMove_errors `{api : Api} (f src : Fs) (srcRemote dstRemote : string)
  (w : World) (r : option error) (s' : Server) :
  api_rename f srcRemote dstRemote (server w) = (r, s') →
  ∃ res : option error,
    DirMove f src srcRemote dstRemote w
    = Some (res, called (CallRename f srcRemote dstRemote) s' w)
    ∧ (res = None ↔ r = None)
    ∧ (r = Some errNotFound → res = Some ErrorDirNotFound)
    ∧ (r = Some errExists → res = Some ErrorDirExists)
    ∧ (∀ e, r = Some e → e ≠ errNotFound → e ≠ errExists → res = Some e).
Proof.
  intros E.
  exists (match r with
          | Some errNotFound => Some ErrorDirNotFound
          | Some errExists => Some ErrorDirExists
          | _ => r
          end).
  split.
  { unfold DirMove, rename. repeat step. destruct r as [[]|]; reflexivity. }
  split.
  { destruct r as [[]|]; split; intros H; first [discriminate H|reflexivity]. }
  split; [intros ->; reflexivity|]. split; [intros ->; reflexivity|].
  intros e -> H1 H2. destruct e; first [contradiction|reflexivity].
Qed.

Lemma DirMove_errors_witness :
  ∃ res,
    @DirMove scripted fs0 fs0 "docs" "papers"
      (empty_world (set_on_rename (Some (ErrOther "500")) script0))
    = Some (res,
            @called scripted (CallRename fs0 "docs" "papers")
              (set_on_rename (Some (ErrOther "500")) script0)
              (empty_world (set_on_rename (Some (ErrOther "500")) script0)))
    ∧ res = Some (ErrOther "500").
Proof.
  destruct (@DirMove_errors scripted fs0 fs0 "docs" "papers"
              (empty_world (set_on_rename (Some (ErrOther "500")) script0))
              (Some (ErrOther "500"))
              (set_on_rename (Some (ErrOther "500")) script0) eq_refl)
    as (res & H1 & _ & _ & _ & H2).
  exists res. split; [exact H1|].
  apply (H2 (ErrOther "500") eq_refl); discriminate.
Defined.

(** ** More on About *)

(** X18: [About] makes one call for the user.  If that fails it returns
    the error wrapped and no usage; if the account has a storage limit
    other than -1, the total it returns is that limit, negative limits
    included, and the used space is the one reported. *)
Theorem About_passes_values `{api : Api} (f : Fs) (w : World) (s' : Server) :
  (∀ e : error,
     api_userInfo f (server w) = (inl e, s') →
     About f w
     = Some (inl (Errorf "failed to read user info" e),
             called (CallUserInfo f) s' w))
  ∧ (∀ user : UserInfo,
       api_userInfo f (server w) = (inr user, s') →
       StorageSpace (Subscription user) ≠ (-1)%Z →
       ∃ usage,
         About f w = Some (inr usage, called (CallUserInfo f) s' w)
         ∧ Total usage = Some (StorageSpace (Subscription user))
         ∧ Used usage = Some (StorageSpaceUsed user)).
Proof.
  split.
  - intros e E. unfold About, userInfo. repeat step. reflexivity.
  - intros user E Hs. rewrite (About_run_ok f w user s' E).
    destruct (Z.eqb_spec (StorageSpace (Subscription user)) (-1));
      [contradiction|].
    eexists. split; [reflexivity|]. split; reflexivity.
Qed.

Lemma About_passes_values_witness :
  @About scripted fs0
    (empty_world (set_on_userInfo (inl (ErrOther "401")) script0))
  = Some (inl (Errorf "failed to read user info" (ErrOther "401")),
          @called scripted (CallUserInfo fs0)
            (set_on_userInfo (inl (ErrOther "401")) script0)
            (empty_world (set_on_userInfo (inl (ErrOther "401")) script0)))
  ∧ ∃ usage,
      @About scripted fs0
        (empty_world (set_on_userInfo (inr (user0 10 (-2))) script0))
      = Some (inr usage,
              @called scripted (CallUserInfo fs0)
                (set_on_userInfo (inr (user0 10 (-2))) script0)
                (empty_world (set_on_userInfo (inr (user0 10 (-2))) script0)))
      ∧ Total usage = Some (-2)%Z
      ∧ Used usage = Some 10%Z.
Proof.
  split.
  - exact (proj1 (@About_passes_values scripted fs0
                    (empty_world
                       (set_on_userInfo (inl (ErrOther "401")) script0))
                    (set_on_userInfo (inl (ErrOther "401")) script0))
             (ErrOther "401") eq_refl).
  - apply (proj2 (@About_passes_values scripted fs0
                    (empty_world
                       (set_on_userInfo (inr (user0 10 (-2))) script0))
                    (set_on_userInfo (inr (user0 10 (-2))) script0))
             (user0 10 (-2)) eq_refl).
    discriminate.
Defined.

(** ** Allocation *)

Lemma allocates_ret `{api : Api} {A} (a : A) : allocates (ret a).
Proof.
  intros w a' w' Hw H. injection H as _ <-.
  split; [exact Hw|apply keeps_below_refl].
Qed.

Lemma allocates_panic `{api : Api} {A} : allocates (@panic _ A).
Proof. intros w a w' _ H. discriminate H. Qed.

Lemma allocates_bind `{api : Api} {A B} (m : M A) (k : A → M B) :
  allocates m → (∀ a, allocates (k a)) → allocates (bind m k).
Proof.
  intros Hm Hk w b w' Hw. unfold bind.
  destruct (m w) as [[a w1]|] eqn:E; [|discriminate].
  destruct (Hm w a w1 Hw E) as [Hw1 K1]. intros E2.
  destruct (Hk a w1 b w' Hw1 E2) as [Hw2 K2].
  split; [exact Hw2|eapply keeps_below_trans; eassumption].
Qed.

Lemma allocates_call `{api : Api} {A} (c : Call) (op : Server → A * Server) :
  allocates (call c op).
Proof.
  intros w a w' Hw. unfold call. destruct (op (server w)) as [r s].
  intros H. injection H as _ <-. split; [exact Hw|].
  split; [simpl; lia|]. intros b _. split; reflexivity.
Qed.

Lemma allocates_new_slice `{api : Api} (l : list FilesystemNode) :
  allocates (new_slice l).
Proof.
  intros w a w' Hw H. unfold new_slice in H. injection H as _ <-.
  split.
  - intros b Hb. simpl in *. destruct (Hw b) as [Hn Ho]; [lia|].
    split; [|exact Ho]. rewrite store_array_lookup_ge by lia. exact Hn.
  - split; [simpl; lia|]. intros b Hb. simpl.
    split; [apply store_array_lookup_lt; exact Hb|reflexivity].
Qed.

Lemma allocates_new_Object `{api : Api} (o : Object) :
  allocates (new_Object o).
Proof.
  intros w a w' Hw H. unfold new_Object in H. injection H as _ <-.
  split.
  - intros b Hb. simpl in *. destruct (Hw b) as [Hn Ho]; [lia|].
    split; [exact Hn|]. rewrite lookup_insert_ne by lia. exact Ho.
  - split; [simpl; lia|]. intros b Hb. simpl.
    split; [reflexivity|]. apply lookup_insert_ne. lia.
Qed.

Lemma allocates_nodeToObject `{api : Api} (f : Fs) (n : FilesystemNode) :
  allocates (nodeToObject f n).
Proof.
  unfold nodeToObject. apply allocates_bind; [apply allocates_new_slice|].
  intros s. apply allocates_new_Object.
Qed.

Lemma allocates_pathToObject `{api : Api} (f : Fs) (fsp : FilesystemPath) :
  allocates (pathToObject f fsp).
Proof.
  unfold pathToObject.
  destruct (index (fspPath fsp) (BaseIndex fsp)); [|apply allocates_panic].
  apply allocates_bind; [apply allocates_new_slice|]. intros ps.
  apply allocates_bind; [apply allocates_new_slice|]. intros cs.
  apply allocates_new_Object.
Qed.

Lemma allocates_NewObject `{api : Api} (f : Fs) (remote : string) :
  allocates (NewObject f remote).
Proof.
  unfold NewObject, stat. apply allocates_bind; [apply allocates_call|].
  intros [e|fsp].
  - destruct e; apply allocates_ret.
  - destruct (index (fspPath fsp) (BaseIndex fsp)); [|apply allocates_panic].
    destruct (String.eqb _ _); [apply allocates_ret|].
    apply allocates_bind; [apply allocates_pathToObject|].
    intros p. apply allocates_ret.
Qed.

Lemma allocates_Put `{api : Api} (f : Fs) (body : string) (src : ObjectInfo)
  (options : list OpenOption) :
  allocates (Put f body src options).
Proof.
  unfold Put, put, update. apply allocates_bind; [apply allocates_call|].
  intros [e|up]; [apply allocates_ret|].
  apply allocates_bind; [apply allocates_call|].
  intros [e|node]; [apply allocates_ret|].
  apply allocates_bind; [apply allocates_nodeToObject|].
  intros p. apply allocates_ret.
Qed.

Lemma allocates_List `{api : Api} {Directory : Type}
  (ntd : Fs → FilesystemNode → Directory) (f : Fs) (dir : string) :
  allocates (List ntd f dir).
Proof.
  assert (∀ cs, allocates (list_entries ntd f cs)) as Hl.
  { induction cs as [|c cs IH]; simpl; [apply allocates_ret|].
    apply allocates_bind.
    - destruct (String.eqb _ _); [apply allocates_ret|].
      apply allocates_bind; [apply allocates_nodeToObject|].
      intros p. apply allocates_ret.
    - intros e. apply allocates_bind; [exact IH|].
      intros es. apply allocates_ret. }
  unfold List, stat. apply allocates_bind; [apply allocates_call|].
  intros [e|fsp].
  - destruct e; apply allocates_ret.
  - apply allocates_bind; [apply Hl|]. intros es. apply allocates_ret.
Qed.

(** What is stored in a world in order is stored below its allocation
    pointer, so a call that writes nothing below it keeps every Object and
    node there was. *)
Lemma kept_handles `{api : Api} (w w' : World) :
  fresh_above w → keeps_below w w' →
  (∀ (p : addr) (o : Object), objs w !! p = Some o → objs w' !! p = Some o)
  ∧ (∀ (a : addr) (n : FilesystemNode),
       nodes w !! a = Some n → nodes w' !! a = Some n).
Proof.
  intros Hw [_ K]. split.
  - intros p o Ho. destruct (le_lt_dec (next w) p) as [Hge|Hlt].
    + destruct (Hw p Hge) as [_ Hnone]. congruence.
    + destruct (K p Hlt) as [_ E]. congruence.
  - intros a n Hn. destruct (le_lt_dec (next w) a) as [Hge|Hlt].
    + destruct (Hw a Hge) as [Hnone _]. congruence.
    + destruct (K a Hlt) as [E _]. congruence.
Qed.

(** X19: [NewObject], [Put] and [List] only allocate.  Run in a world where
    nothing is stored at or above the allocation pointer, each of them ends
    in such a world, and every Object and every node that was there before
    the call is there unchanged after it, whether the call succeeds or
    fails. *)
Theorem allocating_calls_keep_handles `{api : Api} {Directory : Type}
  (ntd : Fs → FilesystemNode → Directory) (f : Fs) (remote body : string)
  (src : ObjectInfo) (options : list OpenOption) (w : World) :
  fresh_above w →
  let kept (w' : World) : Prop :=
    fresh_above w'
    ∧ (∀ (p : addr) (o : Object),
         objs w !! p = Some o → objs w' !! p = Some o)
    ∧ (∀ (a : addr) (n : FilesystemNode),
         nodes w !! a = Some n → nodes w' !! a = Some n) in
  (∀ r w', NewObject f remote w = Some (r, w') → kept w')
  ∧ (∀ r w', Put f body src options w = Some (r, w') → kept w')
  ∧ (∀ r w', List ntd f remote w = Some (r, w') → kept w').
Proof.
  intros Hw kept.
  assert (∀ A (m : M A), allocates m → ∀ r w', m w = Some (r, w') → kept w')
    as H.
  { intros A m Hm r w' E. destruct (Hm w r w' Hw E) as [Hw' K].
    split; [exact Hw'|]. apply kept_handles; assumption. }
  split; [|split].
  - apply H, allocates_NewObject.
  - apply H, allocates_Put.
  - apply H, allocates_List.
Qed.

Lemma fresh_above_world1 (s : Script) : fresh_above (world1 s).
Proof.
  intros a Ha. simpl in Ha. split; simpl.
  - rewrite !lookup_insert_ne by lia. apply lookup_empty.
  - rewrite lookup_insert_ne by lia. apply lookup_empty.
Qed.

Lemma allocating_calls_keep_handles_witness :
  ∃ r w',
    @Put scripted fs0 "hello"
      {| srcRemote := "b.txt"; srcModTime := 7; srcSize := 5 |} []
      (world1 script0)
    = Some (r, w')
    ∧ objs w' !! 3 = Some {| fs := fs0; base := 2;
                             path := {| sptr := 1; slen := 2 |};
                             children := {| sptr := 3; slen := 0 |} |}
    ∧ nodes w' !! 2 = Some file0.
Proof.
  eexists _, _. split; [vm_compute; reflexivity|].
  destruct (proj1 (proj2 (@allocating_calls_keep_handles scripted Directory0
                            nodeToDirectory0 fs0 "a.txt" "hello"
                            {| srcRemote := "b.txt"; srcModTime := 7;
                               srcSize := 5 |} []
                            (world1 script0) (fresh_above_world1 script0)))
              _ _ eq_refl)
    as (_ & Ho & Hn).
  split; [apply Ho|apply Hn]; reflexivity.
Defined.

(** ** NewObject, then Move *)

(** Where a successful [NewObject] puts the Object and its slices. *)
Lemma NewObject_layout `{api : Api} (f : Fs) (remote : string) (w : World)
  (fsp : FilesystemPath) (n : FilesystemNode) (s' : Server) :
  api_stat f remote (server w) = (inr fsp, s') →
  index (fspPath fsp) (BaseIndex fsp) = Some n →
  Type_ n ≠ "dir" →
  ∃ (p : addr) (o : Object) (w' : World),
    NewObject f remote w = Some (inr (PdObject p), w')
    ∧ server w' = s'
    ∧ objs w' !! p = Some o
    ∧ nodes w' !! base o = Some n
    ∧ base o = sptr (path o) + Z.to_nat (BaseIndex fsp)
    ∧ Z.to_nat (BaseIndex fsp) < slen (path o)
    ∧ base o < sptr (children o)
    ∧ read_slice (nodes w') (path o) = Some (fspPath fsp)
    ∧ read_slice (nodes w') (children o) = Some (Children fsp).
Proof.
  intros E Hn Hdir. apply String.eqb_neq in Hdir.
  destruct (index_Some _ _ _ Hn) as [Hi _].
  pose proof (lookup_lt_Some _ _ _ Hi) as Hlt.
  eexists _, _, _. split.
  { unfold NewObject, stat. repeat step. rewrite Hn, Hdir.
    unfold pathToObject. rewrite Hn. reflexivity. }
  simpl. split; [reflexivity|]. split; [apply lookup_insert_eq|].
  repeat match goal with |- _ ∧ _ => split end; simpl.
  - rewrite store_array_lookup_lt by lia. apply store_array_lookup, Hi.
  - reflexivity.
  - exact Hlt.
  - lia.
  - apply read_slice_intro; [reflexivity|]. simpl. intros i x Hx.
    pose proof (lookup_lt_Some _ _ _ Hx).
    rewrite store_array_lookup_lt by lia. apply store_array_lookup, Hx.
  - apply read_slice_intro; [reflexivity|]. simpl. intros i x Hx.
    apply store_array_lookup, Hx.
Qed.

(** X20: the [base] of an Object made by [NewObject] is a cell of its path
    slice, so a successful [Move] shows in the path trace the Object holds:
    the element at [BaseIndex] has the new path, the ancestors before it
    and the children are as the resolver returned them. *)
Theorem NewObject_then_Move `{api : Api} (f g : Fs) (remote dst : string)
  (w : World) (fsp : FilesystemPath) (n : FilesystemNode) (s1 s2 : Server) :
  api_stat f remote (server w) = (inr fsp, s1) →
  index (fspPath fsp) (BaseIndex fsp) = Some n →
  Type_ n ≠ "dir" →
  api_rename g (Path n) dst s1 = (None, s2) →
  ∃ (p : addr) (o : Object) (w1 w2 : World),
    NewObject f remote w = Some (inr (PdObject p), w1)
    ∧ Move g (PdObject p) dst w1 = Some (inr (PdObject p), w2)
    ∧ objs w2 !! p = Some o
    ∧ fs o = f
    ∧ read_slice (nodes w2) (path o)
      = Some (<[Z.to_nat (BaseIndex fsp) := set_Path dst n]> (fspPath fsp))
    ∧ read_slice (nodes w2) (children o) = Some (Children fsp).
Proof.
  intros E Hn Hdir Er.
  destruct (NewObject_layout f remote w fsp n s1 E Hn Hdir)
    as (p & o & w1 & H & Hs & Ho & Hb & Hbase & Hlt & Hc & Hps & Hcs).
  destruct (NewObject_alloc f remote w fsp n s1 E Hn Hdir)
    as (p' & o' & w1' & H' & Ho' & _ & Hf).
  rewrite H in H'. injection H' as <- <-.
  assert (o' = o) as -> by congruence.
  rewrite <- Hs in Er.
  destruct (Move_slices g p o n dst w1 s2 (fspPath fsp) (Children fsp)
              (Z.to_nat (BaseIndex fsp)) Ho Hb Er Hps Hcs Hbase Hlt
              (or_introl Hc))
    as (w2 & Hm & Hp2 & Hc2).
  exists p, o, w1, w2. split; [exact H|]. split; [exact Hm|].
  split; [|split; [exact Hf|split; assumption]].
  unfold Move, rename in Hm.
  erewrite bind_run in Hm by (eapply Remote_run; eassumption).
  erewrite bind_run in Hm by (eapply Remote_run; eassumption).
  erewrite bind_run in Hm by (eapply call_run; exact Er).
  cbv beta iota in Hm.
  erewrite bind_run in Hm by (eapply assign_base_run; eassumption).
  injection Hm as <-. exact Ho.
Qed.

Lemma NewObject_then_Move_witness :
  ∃ (p : addr) (o : Object) (w1 w2 : World),
    @NewObject scripted fs0 "docs/a.txt" (empty_world script0)
    = Some (inr (PdObject p), w1)
    ∧ Move fs0 (PdObject p) "docs/b.txt" w1 = Some (inr (PdObject p), w2)
    ∧ objs w2 !! p = Some o
    ∧ read_slice (nodes w2) (path o)
      = Some [dir0; set_Path "docs/b.txt" file0].
Proof.
  destruct (@NewObject_then_Move scripted fs0 fs0 "docs/a.txt" "docs/b.txt"
              (empty_world script0)
              {| fspPath := [dir0; file0]; BaseIndex := 1; Children := [] |}
              file0 script0 script0 eq_refl eq_refl)
    as (p & o & w1 & w2 & H1 & H2 & H3 & _ & H4 & _).
  { discriminate. }
  { reflexivity. }
  exists p, o, w1, w2. exact (conj H1 (conj H2 (conj H3 H4))).
Defined.
